(** * exonum-client: the message envelope of [src/types/message.js]

    A shallow embedding of the class [NewMessage] (constructor, the two
    header serializers, [size] and [serialize]) and of the parts of the
    modules it imports that the envelope relies on.

    JavaScript objects are finite maps from property names to values, a
    property that was never assigned reads as [undefined]; arrays of
    8-bit integers are lists of [Z]; a method is a computation in a small
    state-and-exception monad over the receiver [this] and the console. *)

From Stdlib Require Import ZArith List String Ascii Lia.
From stdpp Require Import base gmap strings list.

Local Open Scope string_scope.
Local Open Scope list_scope.
Local Open Scope nat_scope.

(** ** JavaScript values *)

(** The scalar values the envelope handles.  [VNonInteger] stands for a
    number without an integer value: a fraction such as [63 / 2], or
    [NaN] (the result of [undefined / 2]). *)
Inductive value : Type :=
| VUndefined
| VNull
| VBool (b : bool)
| VNumber (n : Z)
| VNonInteger
| VString (s : string).

(** Exceptions.  [TypeError] is what the constructor throws and what the
    runtime raises on a property read of [undefined]; the other two are
    the names the design document gives to the codecs' range failure and
    to a rejected message kind. *)
Inductive error : Type :=
| TypeError (msg : string)
| EncodingRangeError (msg : string)
| UnknownMessageKindError.

Inductive result (A : Type) : Type :=
| Ok (a : A)
| Throw (e : error).
Arguments Ok {A} a.
Arguments Throw {A} e.

Definition result_bind {A B} (r : result A) (f : A → result B) : result B :=
  match r with
  | Ok a => f a
  | Throw e => Throw e
  end.

(** ** Arrays of 8-bit integers *)

(** What an array hole holds when an index past the end is assigned. *)
Definition hole : Z := (-1)%Z.

(** [buffer[i] = v]: overwrites inside the array, extends it otherwise. *)
Definition array_set (buffer : list Z) (i : nat) (v : Z) : list Z :=
  if decide (i < length buffer) then <[i := v]> buffer
  else buffer ++ replicate (i - length buffer) hole ++ [v].

(** [bytes.forEach((b, pos) => { buffer[from + pos] = b })]. *)
Fixpoint write_bytes (buffer : list Z) (from : nat) (bytes : list Z) : list Z :=
  match bytes with
  | [] => buffer
  | b :: rest => write_bytes (array_set buffer from b) (S from) rest
  end.

(** [elements.forEach(element => { buffer.push(element) })]. *)
Definition push_all (buffer elements : list Z) : list Z :=
  fold_left (λ buf element, buf ++ [element]) elements buffer.

(** ** Type handles: [{ size(), serialize(value, buffer, from) }] *)

Record TypeHandle : Type := {
  type_size : option nat;
  type_serialize : value → list Z → nat → result (list Z)
}.

(** Modelled from the spec: the fixed-width representation of an unsigned
    integer written by the primitive codec of [./primitive], least
    significant byte first. *)
Fixpoint le_bytes (width : nat) (n : Z) : list Z :=
  match width with
  | O => []
  | S w => (n mod 256)%Z :: le_bytes w (n / 256)%Z
  end.

(** The number a little-endian byte sequence stands for. *)
Fixpoint le_value (bytes : list Z) : Z :=
  match bytes with
  | [] => 0%Z
  | b :: rest => (b + 256 * le_value rest)%Z
  end.

(** Modelled from the spec: [primitive.UintN.serialize(value, buffer, from)]
    of [./primitive]: writes the [width] bytes of [value] into [buffer]
    starting at [from], growing the buffer when needed, and fails on a
    value outside the range of the declared width. *)
Definition uint_serialize (width : nat) (v : value) (buffer : list Z) (from : nat)
  : result (list Z) :=
  match v with
  | VNumber n =>
      if decide (0 ≤ n < 2 ^ (8 * Z.of_nat width))%Z
      then Ok (write_bytes buffer from (le_bytes width n))
      else Throw (EncodingRangeError "value exceeds the declared width")
  | _ => Throw (TypeError "integer of wrong type is passed")
  end.

Definition hex_digit (c : ascii) : option Z :=
  let n := Z.of_N (N_of_ascii c) in
  if decide (48 ≤ n ≤ 57)%Z then Some (n - 48)%Z
  else if decide (97 ≤ n ≤ 102)%Z then Some (n - 87)%Z
  else if decide (65 ≤ n ≤ 70)%Z then Some (n - 55)%Z
  else None.

Fixpoint hex_bytes (s : string) : option (list Z) :=
  match s with
  | EmptyString => Some []
  | String a (String b rest) =>
      match hex_digit a, hex_digit b, hex_bytes rest with
      | Some hi, Some lo, Some bytes => Some ((16 * hi + lo)%Z :: bytes)
      | _, _, _ => None
      end
  | String _ EmptyString => None
  end.

(** Modelled from the spec: the fixed-length hexadecimal codec of
    [./hexadecimal]: a value of [width] bytes, given as a string of
    [2 * width] hexadecimal digits, written at [from]. *)
Definition hex_serialize (width : nat) (v : value) (buffer : list Z) (from : nat)
  : result (list Z) :=
  match v with
  | VString s =>
      match hex_bytes s with
      | Some bytes =>
          if decide (length bytes = width)
          then Ok (write_bytes buffer from bytes)
          else Throw (TypeError "hexadecimal of wrong length is passed")
      | None => Throw (TypeError "hexadecimal of wrong type is passed")
      end
  | _ => Throw (TypeError "hexadecimal of wrong type is passed")
  end.

(** [const SIGNATURE_LENGTH = 64] *)
Definition SIGNATURE_LENGTH : nat := 64.

Module primitive.
(** Modelled from the spec: the unsigned integer types of [./primitive]
    (Uint16 = 2 bytes, Uint32 = 4 bytes, Uint64 = 8 bytes). *)
Definition Uint16 : TypeHandle :=
  {| type_size := Some 2; type_serialize := uint_serialize 2 |}.
Definition Uint32 : TypeHandle :=
  {| type_size := Some 4; type_serialize := uint_serialize 4 |}.
Definition Uint64 : TypeHandle :=
  {| type_size := Some 8; type_serialize := uint_serialize 8 |}.
End primitive.

Module hexadecimal.
(** Modelled from the spec: [Hash] of [./hexadecimal], 32 bytes. *)
Definition Hash : TypeHandle :=
  {| type_size := Some 32; type_serialize := hex_serialize 32 |}.
(** Modelled from the spec: [Digest] of [./hexadecimal], the type the
    envelope serializes its signature with; the signature occupies
    [SIGNATURE_LENGTH] bytes on the wire. *)
Definition Digest : TypeHandle :=
  {| type_size := Some SIGNATURE_LENGTH;
     type_serialize := hex_serialize SIGNATURE_LENGTH |}.
End hexadecimal.

(** ** Fields and objects *)

(** A field descriptor [{ name, type }]; an absent [type] is [None]. *)
Record field : Type := {
  name : value;
  type : option TypeHandle
}.

(** What a property of an object holds: a scalar, or an array of field
    descriptors (the [fields] property of a type descriptor). *)
Inductive prop : Type :=
| Scalar (v : value)
| Fields (fs : list field).

(** [o.k]: a property that is not there reads as [undefined]. *)
Definition get (o : gmap string prop) (k : string) : prop :=
  default (Scalar VUndefined) (o !! k).

(** [x.length] *)
Definition js_length (x : prop) : result value :=
  match x with
  | Scalar VUndefined => Throw (TypeError "Cannot read properties of undefined")
  | Scalar VNull => Throw (TypeError "Cannot read properties of null")
  | Scalar (VString s) => Ok (VNumber (Z.of_nat (String.length s)))
  | Scalar _ => Ok VUndefined
  | Fields fs => Ok (VNumber (Z.of_nat (length fs)))
  end.

(** [x / 2] for the results of [js_length]. *)
Definition js_div2 (x : value) : value :=
  match x with
  | VNumber n => if Z.even n then VNumber (n / 2)%Z else VNonInteger
  | _ => VNonInteger
  end.

(** [x === s] for a string literal [s]. *)
Definition strict_eq_string (x : prop) (s : string) : bool :=
  match x with
  | Scalar (VString s') => bool_decide (s' = s)
  | _ => false
  end.

(** [x !== true] *)
Definition is_not_true (x : value) : bool :=
  match x with
  | VBool true => false
  | _ => true
  end.

(** [type.serialize(x, buffer, from)] for a property value [x]: no codec
    accepts an array of field descriptors. *)
Definition serialize_prop (h : TypeHandle) (x : prop) (buffer : list Z) (from : nat)
  : result (list Z) :=
  match x with
  | Scalar v => type_serialize h v buffer from
  | Fields _ => Throw (TypeError "value of wrong type is passed")
  end.

(** ** The record type of [./generic] *)

Module generic.
(** Modelled from the spec: [fieldIsFixed(field)] of [./generic], true
    iff [field.type.size()] returns a defined numeric value; reading
    [size] of an absent type is a [TypeError]. *)
Definition fieldIsFixed (f : field) : result bool :=
  match type f with
  | Some h => Ok (bool_decide (is_Some (type_size h)))
  | None => Throw (TypeError "Cannot read properties of undefined")
  end.

(** Modelled from the spec: [newType({ fields }).serialize(data)] of
    [./generic] for the fixed-width fields the two message heads
    declare: each field's value is written at the cursor in
    declaration order, and a field that [data] lacks is an error.  The
    encoding of variable-size fields is not part of this fragment. *)
Fixpoint serialize_fields (fs : list field) (data : gmap string prop)
    (buffer : list Z) (cursor : nat) : result (list Z) :=
  match fs with
  | [] => Ok buffer
  | f :: rest =>
      match name f, type f with
      | VString n, Some h =>
          match type_size h with
          | Some width =>
              match get data n with
              | Scalar VUndefined => Throw (TypeError "Field is not defined.")
              | x =>
                  result_bind (serialize_prop h x buffer cursor)
                    (λ buffer', serialize_fields rest data buffer' (cursor + width))
              end
          | None => Throw (TypeError "Field of variable size.")
          end
      | _, _ => Throw (TypeError "Field of wrong type is passed.")
      end
  end.

Definition newType_serialize (fs : list field) (data : gmap string prop)
  : result (list Z) :=
  serialize_fields fs data [] 0.
End generic.

(** ** Methods: state and exceptions *)

(** What a method call can touch: the receiver and the console. *)
Record world : Type := {
  this : gmap string prop;
  console : list (list Z)
}.

Definition M (A : Type) : Type := world → world * result A.

Definition ret {A} (a : A) : M A := λ w, (w, Ok a).

Definition bind {A B} (m : M A) (f : A → M B) : M B :=
  λ w, match m w with
       | (w', Ok a) => f a w'
       | (w', Throw e) => (w', Throw e)
       end.

Definition throw {A} (e : error) : M A := λ w, (w, Throw e).

Definition lift {A} (r : result A) : M A := λ w, (w, r).

(** [this] *)
Definition self : M (gmap string prop) := λ w, (w, Ok (this w)).

(** [this.k] *)
Definition read (k : string) : M prop := λ w, (w, Ok (get (this w) k)).

(** [this.k = x] *)
Definition assign (k : string) (x : prop) : M unit :=
  λ w, ({| this := <[k := x]> (this w); console := console w |}, Ok tt).

(** [console.log(buffer.toString())] *)
Definition console_log (buffer : list Z) : M unit :=
  λ w, ({| this := this w; console := console w ++ [buffer] |}, Ok tt).

(** [xs.forEach(f)]: stops at the first element on which [f] throws. *)
Fixpoint forEach {A} (xs : list A) (f : A → M unit) : M unit :=
  match xs with
  | [] => ret tt
  | x :: rest => bind (f x) (λ _, forEach rest f)
  end.

Notation "'let!' x ':=' m 'in' k" := (bind m (λ x, k))
  (at level 10, x pattern, m at level 100, k at level 200).
Notation "m ';;' k" := (bind m (λ _, k))
  (at level 100, k at level 200, right associativity).

(** ** The envelope: [class NewMessage] *)

Module NewMessage.

(** The callback of [type.fields.forEach] in the constructor. *)
Definition check_field (f : field) : M unit :=
  match name f with
  | VUndefined => throw (TypeError "Name prop is missed.")
  | _ =>
      match type f with
      | None => throw (TypeError "Type prop is missed.")
      | Some _ => ret tt
      end
  end.

(** [constructor (type)] *)
Definition constructor (type : gmap string prop) : M unit :=
  let! fields :=
    match get type "fields" with
    | Fields fs => ret fs
    | Scalar _ => throw (TypeError "type.fields.forEach is not a function")
    end in
  forEach fields check_field ;;
  assign "protocol_version" (get type "protocol_version") ;;
  assign "message_id" (get type "message_id") ;;
  assign "service_id" (get type "service_id") ;;
  assign "signature" (get type "signature") ;;
  assign "fields" (get type "fields") ;;
  assign "public_key" (get type "public_key") ;;
  assign "consensus_tag" (get type "consensus_tag") ;;
  assign "message_type" (get type "message_type").

(** The fields of [MessageHead] in [transactionHeaderSerialization]. *)
Definition transaction_head_fields : list field :=
  [ {| name := VString "protocol_version"; type := Some primitive.Uint16 |};
    {| name := VString "pk_size"; type := Some primitive.Uint64 |};
    {| name := VString "pk_data"; type := Some hexadecimal.Hash |};
    {| name := VString "tx_tag"; type := Some primitive.Uint32 |};
    {| name := VString "service_id"; type := Some primitive.Uint16 |};
    {| name := VString "full_tx_len"; type := Some primitive.Uint64 |} ].

(** [transactionHeaderSerialization ()] *)
Definition transactionHeaderSerialization : M (list Z) :=
  let! protocol_version := read "protocol_version" in
  let! publicKey := read "publicKey" in
  let! publicKey_length := lift (js_length publicKey) in
  let! service_id := read "service_id" in
  let header : gmap string prop :=
    <["protocol_version" := protocol_version]>
    (<["pk_size" := Scalar (js_div2 publicKey_length)]>
    (<["pk_data" := publicKey]>
    (<["tx_tag" := Scalar (VNumber 0)]>
    (<["service_id" := service_id]>
    (<["full_tx_len" := Scalar (VNumber 0)]> ∅))))) in
  lift (generic.newType_serialize transaction_head_fields header).

(** The fields of [MessageHead] in [precommitHeaderSerialization]. *)
Definition precommit_head_fields : list field :=
  [ {| name := VString "protocol_version"; type := Some primitive.Uint16 |};
    {| name := VString "pk_size"; type := Some primitive.Uint64 |};
    {| name := VString "pk_data"; type := Some hexadecimal.Hash |};
    {| name := VString "consensus_tag"; type := Some primitive.Uint32 |};
    {| name := VString "precommit_tag"; type := Some primitive.Uint32 |};
    {| name := VString "precommit_len"; type := Some primitive.Uint64 |} ].

(** [precommitHeaderSerialization ()] *)
Definition precommitHeaderSerialization : M (list Z) :=
  let! protocol_version := read "protocol_version" in
  let! public_key := read "public_key" in
  let! public_key_length := lift (js_length public_key) in
  let! consensus_tag := read "consensus_tag" in
  let! service_id := read "service_id" in
  let header : gmap string prop :=
    <["protocol_version" := protocol_version]>
    (<["pk_size" := Scalar (js_div2 public_key_length)]>
    (<["pk_data" := public_key]>
    (<["consensus_tag" := consensus_tag]>
    (<["precommit_tag" := service_id]>
    (<["precommit_len" := Scalar (VNumber 0)]> ∅))))) in
  lift (generic.newType_serialize precommit_head_fields header).

(** [accumulator + x] where [x] is the result of [field.type.size()]. *)
Definition js_add (accumulator : value) (x : option nat) : value :=
  match accumulator, x with
  | VNumber a, Some n => VNumber (a + Z.of_nat n)
  | _, _ => VNonInteger
  end.

(** The callback of [this.fields.reduce] in [size]. *)
Definition size_step (accumulator : result value) (f : field) : result value :=
  result_bind accumulator (λ acc,
    result_bind (generic.fieldIsFixed f) (λ fixed,
      if fixed : bool
      then Ok (js_add acc (from_option type_size None (type f)))
      else Ok (js_add acc (Some 8)))).

(** [size ()] *)
Definition size : M value :=
  let! fields := read "fields" in
  match fields with
  | Fields fs => lift (fold_left size_step fs (Ok (VNumber 0)))
  | Scalar _ => throw (TypeError "this.fields.reduce is not a function")
  end.

Section Serialize.
(** [serialization.serialize(buffer, shift, data, type, isTransactionBody)]
    of [./serialization], the encoder of a data object against a
    schema with fixed and variable fields: a parameter of the
    development. *)
Variable record_serialize :
  list Z → nat → gmap string prop → prop → bool → result (list Z).

(** Modelled from the spec: [serialization.serialize] reads of the
    type it is given its schema, the [fields], and nothing else. *)
Definition serialization_serialize (buffer : list Z) (shift : nat)
    (data : gmap string prop) (type : gmap string prop)
    (isTransactionBody : bool) : result (list Z) :=
  record_serialize buffer shift data (get type "fields") isTransactionBody.

(** [serialize (data, cutSignature)].  The codecs write into the array
    they are given and return it; the three calls below drop the value
    returned and go on with the array, which is here the new [buffer]. *)
Definition serialize (data : gmap string prop) (cutSignature : value)
  : M (list Z) :=
  let! messageType := read "messageType" in
  let! buffer :=
    (if strict_eq_string messageType "precommit"
     then precommitHeaderSerialization
     else transactionHeaderSerialization) in
  let! receiver := self in
  let! body := lift (serialization_serialize [] 0 data receiver true) in
  let! buffer :=
    lift (type_serialize primitive.Uint64
            (VNumber (Z.of_nat (length body))) buffer 48) in
  let buffer := push_all buffer body in
  let! buffer :=
    lift (type_serialize primitive.Uint64
            (VNumber (Z.of_nat SIGNATURE_LENGTH)) buffer (length buffer)) in
  let! buffer :=
    (if is_not_true cutSignature
     then
       let! signature := read "signature" in
       lift (serialize_prop hexadecimal.Digest signature buffer (length buffer))
     else ret buffer) in
  console_log buffer ;;
  ret buffer.
End Serialize.

(** [new NewMessage(type)]: the constructor runs on a fresh object; the
    object is the result only when the constructor returns. *)
Definition new (type : gmap string prop) : result (gmap string prop) :=
  match constructor type {| this := ∅; console := [] |} with
  | (w, Ok _) => Ok (this w)
  | (_, Throw e) => Throw e
  end.

End NewMessage.

(** [newMessage (type)] *)
Definition newMessage (type : gmap string prop) : result (gmap string prop) :=
  NewMessage.new type.

(** The result of calling a method on the object [o]. *)
Definition call {A} (m : M A) (o : gmap string prop) : result A :=
  snd (m {| this := o; console := [] |}).

(** ** Reference definitions used in the statements *)

(** The width a field takes in the fixed part of a record, in the words
    of the design document: the field's fixed width, or 8 for a variable
    field. *)
Definition slot_width (f : field) : nat :=
  match type f with
  | Some h => default 8 (type_size h)
  | None => 8
  end.

Definition schema_size_spec (fs : list field) : nat :=
  sum_list (slot_width <$> fs).

(** The byte offset and width of each field of a record of fixed fields. *)
Fixpoint layout (fs : list field) (cursor : nat) : list (value * nat * nat) :=
  match fs with
  | [] => []
  | f :: rest => (name f, cursor, slot_width f) :: layout rest (cursor + slot_width f)
  end.

(** The header [serialize] starts from, by the test on [this.messageType]. *)
Definition selected_header : M (list Z) :=
  let! messageType := read "messageType" in
  if strict_eq_string messageType "precommit"
  then NewMessage.precommitHeaderSerialization
  else NewMessage.transactionHeaderSerialization.

(** An encoder for schemas of fixed-width fields only, built from the
    record type of [./generic]; it instantiates the parameter of
    [NewMessage.serialize] in the examples. *)
Definition fixed_record_serialize (buffer : list Z) (shift : nat)
    (data : gmap string prop) (fields : prop) (isTransactionBody : bool)
  : result (list Z) :=
  match fields with
  | Fields fs => generic.serialize_fields fs data buffer shift
  | Scalar _ => Throw (TypeError "type.fields.forEach is not a function")
  end.

(** A property of computations: the receiver is left as it was, and the
    result depends on the receiver only, not on the console. *)
Definition reads_only {A} (m : M A) : Prop :=
  ∀ w, this (m w).1 = this w ∧ ∀ w', this w' = this w → (m w').2 = (m w).2.

(** A computation that leaves the whole world, console included, as it was. *)
Definition unchanged {A} (m : M A) : Prop := ∀ w, (m w).1 = w.

(** A codec is well sized when a write at the end of a buffer appends
    exactly the bytes of its declared width. *)
Definition well_sized (h : TypeHandle) : Prop :=
  ∀ width v buffer out,
    type_size h = Some width →
    type_serialize h v buffer (length buffer) = Ok out →
    ∃ bytes, out = buffer ++ bytes ∧ length bytes = width.

Definition field_well_sized (f : field) : Prop :=
  ∀ h, type f = Some h → well_sized h.

(** What [serialize] returns, as a function of the receiver. *)
Definition serialize_result
    (rs : list Z → nat → gmap string prop → prop → bool → result (list Z))
    (data : gmap string prop) (cutSignature : value) (o : gmap string prop)
  : result (list Z) :=
  result_bind (call selected_header o) (λ header,
  result_bind (NewMessage.serialization_serialize rs [] 0 data o true) (λ body,
  result_bind (uint_serialize 8 (VNumber (Z.of_nat (length body))) header 48) (λ patched,
  result_bind (uint_serialize 8 (VNumber (Z.of_nat SIGNATURE_LENGTH))
                 (push_all patched body) (length (push_all patched body))) (λ marked,
  if is_not_true cutSignature
  then serialize_prop hexadecimal.Digest (get o "signature") marked (length marked)
  else Ok marked)))).

(** ** Example objects *)

Definition example_public_key : string :=
  "000102030405060708090a0b0c0d0e0f101112131415161718191a1b1c1d1e1f".

Definition example_signature : string :=
  "808182838485868788898a8b8c8d8e8f909192939495969798999a9b9c9d9e9fa0a1a2a3a4a5a6a7a8a9aaabacadaeafb0b1b2b3b4b5b6b7b8b9babbbcbdbebf".

Definition other_signature : string :=
  "404142434445464748494a4b4c4d4e4f505152535455565758595a5b5c5d5e5f606162636465666768696a6b6c6d6e6f707172737475767778797a7b7c7d7e7f".

(** The schema [{ fields: [{ name: 'amount', type: Uint64 }] }]. *)
Definition amount_field : field :=
  {| name := VString "amount"; type := Some primitive.Uint64 |}.

(** A type descriptor with the given message kind and signature. *)
Definition example_type (kind : string) (signature : value) : gmap string prop :=
  <["protocol_version" := Scalar (VNumber 0)]>
  (<["message_id" := Scalar (VNumber 128)]>
  (<["service_id" := Scalar (VNumber 258)]>
  (<["signature" := Scalar signature]>
  (<["fields" := Fields [amount_field]]>
  (<["public_key" := Scalar (VString example_public_key)]>
  (<["consensus_tag" := Scalar (VNumber 7)]>
  (<["message_type" := Scalar (VString kind)]> ∅))))))).

(** The data object [{ amount: 100 }]. *)
Definition example_data : gmap string prop :=
  <["amount" := Scalar (VNumber 100)]> ∅.

(** [o.publicKey = o.public_key], assigned by a caller after construction. *)
Definition with_publicKey (o : gmap string prop) : gmap string prop :=
  <["publicKey" := get o "public_key"]> o.

(** [o.messageType = kind], assigned by a caller after construction. *)
Definition with_messageType (kind : string) (o : gmap string prop)
  : gmap string prop :=
  <["messageType" := Scalar (VString kind)]> o.

(** What the constructor's eight assignments make of the receiver [o]. *)
Definition assigned (type o : gmap string prop) : gmap string prop :=
  <["message_type" := get type "message_type"]>
  (<["consensus_tag" := get type "consensus_tag"]>
  (<["public_key" := get type "public_key"]>
  (<["fields" := get type "fields"]>
  (<["signature" := get type "signature"]>
  (<["service_id" := get type "service_id"]>
  (<["message_id" := get type "message_id"]>
  (<["protocol_version" := get type "protocol_version"]> o))))))).

(** The envelope [newMessage(example_type kind signature)]. *)
Definition example_envelope (kind : string) (signature : value)
  : gmap string prop :=
  assigned (example_type kind signature) ∅.

(** A transaction envelope with the stored signature [s], to which a
    caller has assigned [publicKey]. *)
Definition signed_envelope (s : string) : gmap string prop :=
  with_publicKey (example_envelope "transaction" (VString s)).

(** An envelope of the kind 'unknown', at construction and in the
    property [serialize] tests, with [publicKey] assigned. *)
Definition unknown_kind_envelope : gmap string prop :=
  with_messageType "unknown"
    (with_publicKey (example_envelope "unknown" (VString example_signature))).

(** A field descriptor the constructor accepts, and one it rejects. *)
Definition field_complete (f : field) : Prop :=
  name f ≠ VUndefined ∧ is_Some (type f).

Definition field_incomplete (f : field) : Prop :=
  name f = VUndefined ∨ type f = None.

(** The two messages of the constructor's [TypeError]. *)
Definition constructor_message (msg : string) : Prop :=
  msg = "Name prop is missed." ∨ msg = "Type prop is missed.".

(** A descriptor with a field that has no name, and one with a field that
    has no type. *)
Definition nameless_fields : list field :=
  [ amount_field; {| name := VUndefined; type := Some primitive.Uint32 |} ].

Definition typeless_fields : list field :=
  [ amount_field; {| name := VString "to"; type := None |} ].

Definition type_with_fields (fs : list field) : gmap string prop :=
  <["fields" := Fields fs]> (example_type "transaction" VUndefined).

(** The bytes [example_public_key] and [example_signature] stand for. *)
Definition example_public_key_bytes : list Z := seqZ 0 32.
Definition example_signature_bytes : list Z := seqZ 128 64.
Definition other_signature_bytes : list Z := seqZ 64 64.

(** The message of the example with a transaction header, without its
    signature: header, body length 8, the body, the signature length. *)
Definition example_preimage : list Z :=
  le_bytes 2 0 ++ le_bytes 8 32 ++ example_public_key_bytes
  ++ le_bytes 4 0 ++ le_bytes 2 258 ++ le_bytes 8 8
  ++ le_bytes 8 100 ++ le_bytes 8 64.

(** A type of variable size: a hexadecimal string of any length. *)
Definition variable_hex : TypeHandle :=
  {| type_size := None;
     type_serialize := λ v buffer from,
       match v with
       | VString s =>
           match hex_bytes s with
           | Some bytes => Ok (write_bytes buffer from bytes)
           | None => Throw (TypeError "hexadecimal of wrong type is passed")
           end
       | _ => Throw (TypeError "hexadecimal of wrong type is passed")
       end |}.

(** A schema with a fixed, a variable and another fixed field. *)
Definition mixed_fields : list field :=
  [ amount_field;
    {| name := VString "memo"; type := Some variable_hex |};
    {| name := VString "to"; type := Some hexadecimal.Hash |} ].

Definition mixed_world : world :=
  {| this := <["fields" := Fields mixed_fields]>
               (example_envelope "transaction" VUndefined);
     console := [] |}.

(** A world in which some object already has state and the console a line. *)
Definition example_world : world :=
  {| this := with_publicKey (example_envelope "transaction" VUndefined);
     console := [[1; 2; 3]%Z] |}.

(** ** Reference definitions for the further properties *)

(** The properties the constructor assigns. *)
Definition constructor_keys : list string :=
  [ "protocol_version"; "message_id"; "service_id"; "signature"; "fields";
    "public_key"; "consensus_tag"; "message_type" ].

(** The message of the constructor's error on the incomplete field [f]. *)
Definition incomplete_message (f : field) : string :=
  match name f with
  | VUndefined => "Name prop is missed."
  | _ => "Type prop is missed."
  end.

(** Fields of which the second has neither a name nor a type. *)
Definition both_missing_fields : list field :=
  [ amount_field;
    {| name := VUndefined; type := None |};
    {| name := VString "to"; type := None |} ].

(** The message without its signature, from the header [serialize]
    starts from and the body: the header with the body length written at
    offsets 48 to 55, the body, the signature length. *)
Definition message_bytes (header body : list Z) : list Z :=
  take 48 header ++ le_bytes 8 (Z.of_nat (length body)) ++ drop 56 header
  ++ body ++ le_bytes 8 (Z.of_nat SIGNATURE_LENGTH).



(** The bytes of a transaction header and of a precommit header. *)
Definition transaction_header_bytes (protocol_version : Z) (key : list Z)
    (service_id : Z) : list Z :=
  le_bytes 2 protocol_version ++ le_bytes 8 32 ++ key
  ++ le_bytes 4 0 ++ le_bytes 2 service_id ++ le_bytes 8 0.

Definition precommit_header_bytes (protocol_version : Z) (key : list Z)
    (consensus_tag service_id : Z) : list Z :=
  le_bytes 2 protocol_version ++ le_bytes 8 32 ++ key
  ++ le_bytes 4 consensus_tag ++ le_bytes 4 service_id ++ le_bytes 8 0.

(** The message of the example serialized with the precommit header,
    without its signature. *)
Definition example_precommit_message : list Z :=
  le_bytes 2 0 ++ le_bytes 8 32 ++ example_public_key_bytes
  ++ le_bytes 4 7 ++ le_bytes 4 (258 + 8 * 2 ^ 16) ++ le_bytes 8 0
  ++ le_bytes 8 100 ++ le_bytes 8 64.

(** * Proofs *)

(** ** Buffers *)

Lemma write_bytes_at_end (bytes buffer : list Z) :
  write_bytes buffer (length buffer) bytes = buffer ++ bytes.
Proof.
  revert buffer. induction bytes as [|b rest IH]; intros buffer; simpl.
  - by rewrite app_nil_r.
  - unfold array_set. destruct (decide (length buffer < length buffer)); [lia|].
    rewrite Nat.sub_diag. simpl.
    replace (S (length buffer)) with (length (buffer ++ [b]))
      by (rewrite length_app; simpl; lia).
    rewrite IH. by rewrite <- app_assoc.
Qed.

Lemma write_bytes_inside (bytes buffer : list Z) (from : nat) :
  from + length bytes ≤ length buffer →
  write_bytes buffer from bytes
  = take from buffer ++ bytes ++ drop (from + length bytes) buffer.
Proof.
  revert buffer from. induction bytes as [|b rest IH]; intros buffer from Hle; simpl in *.
  - rewrite Nat.add_0_r. by rewrite take_drop.
  - unfold array_set. destruct (decide (from < length buffer)); [|lia].
    rewrite IH by (rewrite length_insert; lia).
    rewrite take_S_r with (x := b) by (apply list_lookup_insert_eq; lia).
    rewrite take_insert_ge by lia.
    rewrite drop_insert_lt by lia.
    rewrite <- app_assoc. simpl. by rewrite Nat.add_succ_r.
Qed.

Lemma push_all_app (elements buffer : list Z) :
  push_all buffer elements = buffer ++ elements.
Proof.
  unfold push_all. revert buffer.
  induction elements as [|e rest IH]; intros buffer; simpl.
  - by rewrite app_nil_r.
  - rewrite IH. by rewrite <- app_assoc.
Qed.

Lemma length_le_bytes (width : nat) (n : Z) : length (le_bytes width n) = width.
Proof. revert n. induction width as [|w IH]; intros n; simpl; [done|by rewrite IH]. Qed.

Lemma le_value_le_bytes (width : nat) (n : Z) :
  (0 ≤ n < 2 ^ (8 * Z.of_nat width))%Z → le_value (le_bytes width n) = n.
Proof.
  revert n. induction width as [|w IH]; intros n Hn.
  - simpl in *. lia.
  - cbn [le_bytes le_value]. rewrite IH.
    + pose proof (Z.div_mod n 256). lia.
    + replace (8 * Z.of_nat (S w))%Z with (8 + 8 * Z.of_nat w)%Z in Hn by lia.
      rewrite Z.pow_add_r in Hn by lia. change (2 ^ 8)%Z with 256%Z in Hn.
      split; [apply Z.div_pos; lia|].
      apply Z.div_lt_upper_bound; lia.
Qed.

(** ** Codecs writing at the end of a buffer *)

Lemma uint_serialize_at_end width v buffer out :
  uint_serialize width v buffer (length buffer) = Ok out →
  ∃ n, v = VNumber n ∧ (0 ≤ n < 2 ^ (8 * Z.of_nat width))%Z
       ∧ out = buffer ++ le_bytes width n.
Proof.
  unfold uint_serialize. destruct v as [| |b|n| |s]; try discriminate.
  case_decide; [|discriminate]. intros [= <-].
  exists n. by rewrite write_bytes_at_end.
Qed.

Lemma hex_serialize_at_end width v buffer out :
  hex_serialize width v buffer (length buffer) = Ok out →
  ∃ s bytes, v = VString s ∧ hex_bytes s = Some bytes
             ∧ length bytes = width ∧ out = buffer ++ bytes.
Proof.
  unfold hex_serialize. destruct v as [| |b|n| |s]; try discriminate.
  destruct (hex_bytes s) as [bytes|] eqn:Hs; [|discriminate].
  case_decide; [|discriminate]. intros [= <-].
  exists s, bytes. by rewrite write_bytes_at_end.
Qed.

Lemma uint_well_sized width :
  well_sized {| type_size := Some width; type_serialize := uint_serialize width |}.
Proof.
  intros w v buffer out [= <-] H. simpl in H.
  apply uint_serialize_at_end in H as (n & _ & _ & ->).
  eexists. split; [done|apply length_le_bytes].
Qed.

Lemma hex_well_sized width :
  well_sized {| type_size := Some width; type_serialize := hex_serialize width |}.
Proof.
  intros w v buffer out [= <-] H. simpl in H.
  apply hex_serialize_at_end in H as (s & bytes & _ & _ & Hlen & ->).
  by exists bytes.
Qed.

Lemma serialize_fields_at_end fs data buffer out :
  Forall field_well_sized fs →
  generic.serialize_fields fs data buffer (length buffer) = Ok out →
  ∃ bytes, out = buffer ++ bytes ∧ length bytes = schema_size_spec fs.
Proof.
  intros Hfs. revert buffer. induction Hfs as [|f rest Hf _ IH]; intros buffer H.
  - simpl in H. injection H as <-. exists []. by rewrite app_nil_r.
  - simpl in H.
    destruct (name f) as [| |b|n| |s]; try discriminate.
    destruct (type f) as [h|] eqn:Hty; [|discriminate].
    destruct (type_size h) as [width|] eqn:Hsz; [|discriminate].
    assert (∃ x, get data s = x ∧
      result_bind (serialize_prop h x buffer (length buffer))
        (λ buffer', generic.serialize_fields rest data buffer' (length buffer + width))
      = Ok out) as (x & _ & Hx).
    { destruct (get data s) as [[]|]; try discriminate; eauto. }
    destruct (serialize_prop h x buffer (length buffer)) as [buffer'|] eqn:Hser;
      [|discriminate].
    simpl in Hx.
    destruct x as [v|]; [|discriminate]. simpl in Hser.
    destruct (Hf h Hty width v buffer buffer' Hsz Hser) as (bytes & -> & Hlen).
    replace (length buffer + width) with (length (buffer ++ bytes)) in Hx
      by (rewrite length_app; lia).
    apply IH in Hx as (bytes' & -> & Hlen').
    exists (bytes ++ bytes'). split; [by rewrite app_assoc|].
    rewrite length_app, Hlen, Hlen'.
    unfold schema_size_spec, slot_width. simpl. by rewrite Hty, Hsz.
Qed.

Ltac well_sized_tac :=
  first [apply uint_well_sized | apply hex_well_sized].

Lemma transaction_head_well_sized :
  Forall field_well_sized NewMessage.transaction_head_fields.
Proof.
  repeat (apply Forall_cons; split; [intros h [= <-]; well_sized_tac|]).
  apply Forall_nil_2.
Qed.

Lemma precommit_head_well_sized :
  Forall field_well_sized NewMessage.precommit_head_fields.
Proof.
  repeat (apply Forall_cons; split; [intros h [= <-]; well_sized_tac|]).
  apply Forall_nil_2.
Qed.

(** ** The monad *)

Lemma reads_only_ret {A} (a : A) : reads_only (ret a).
Proof. by intros w. Qed.

Lemma reads_only_throw {A} e : reads_only (@throw A e).
Proof. by intros w. Qed.

Lemma reads_only_lift {A} (r : result A) : reads_only (lift r).
Proof. by intros w. Qed.

Lemma reads_only_read k : reads_only (read k).
Proof. intros w. split; [done|]. intros w' Hw. simpl. by rewrite Hw. Qed.

Lemma reads_only_self : reads_only self.
Proof. intros w. split; [done|]. intros w' Hw. simpl. by rewrite Hw. Qed.

Lemma reads_only_console_log buffer : reads_only (console_log buffer).
Proof. by intros w. Qed.

Lemma reads_only_bind {A B} (m : M A) (f : A → M B) :
  reads_only m → (∀ a, reads_only (f a)) → reads_only (bind m f).
Proof.
  intros Hm Hf w. unfold bind.
  destruct (Hm w) as [Hthis Hres].
  destruct (m w) as [w1 r] eqn:Hmw. simpl in *. split.
  - destruct r as [a|e]; [|done]. destruct (Hf a w1) as [-> _]. done.
  - intros w' Hw'. specialize (Hres w' Hw').
    destruct (m w') as [w1' r'] eqn:Hmw'. simpl in Hres. subst r'.
    destruct r as [a|e]; [|done].
    destruct (Hf a w1) as [_ Hfa]. apply Hfa.
    destruct (Hm w') as [Hthis' _]. rewrite Hmw' in Hthis'. simpl in Hthis'.
    congruence.
Qed.

Lemma reads_only_if {A} (b : bool) (m1 m2 : M A) :
  reads_only m1 → reads_only m2 → reads_only (if b then m1 else m2).
Proof. by destruct b. Qed.

Ltac reads_only_step :=
  match goal with
  | |- reads_only (bind _ _) => apply reads_only_bind; [|intros ?]
  | |- reads_only (if _ then _ else _) => apply reads_only_if
  | |- reads_only (ret _) => apply reads_only_ret
  | |- reads_only (throw _) => apply reads_only_throw
  | |- reads_only (lift _) => apply reads_only_lift
  | |- reads_only (read _) => apply reads_only_read
  | |- reads_only self => apply reads_only_self
  | |- reads_only (console_log _) => apply reads_only_console_log
  end.

Lemma reads_only_transaction_header :
  reads_only NewMessage.transactionHeaderSerialization.
Proof. unfold NewMessage.transactionHeaderSerialization. repeat reads_only_step. Qed.

Lemma reads_only_precommit_header :
  reads_only NewMessage.precommitHeaderSerialization.
Proof. unfold NewMessage.precommitHeaderSerialization. repeat reads_only_step. Qed.

Lemma reads_only_selected_header : reads_only selected_header.
Proof.
  unfold selected_header. repeat reads_only_step.
  - apply reads_only_precommit_header.
  - apply reads_only_transaction_header.
Qed.

Lemma reads_only_size : reads_only NewMessage.size.
Proof.
  unfold NewMessage.size. repeat reads_only_step.
  match goal with |- reads_only (match ?x with _ => _ end) => destruct x end;
    reads_only_step.
Qed.

Lemma reads_only_serialize rs data cut :
  reads_only (NewMessage.serialize rs data cut).
Proof.
  unfold NewMessage.serialize. repeat reads_only_step.
  - apply reads_only_precommit_header.
  - apply reads_only_transaction_header.
Qed.

(** The result of a call that only reads is the result on the receiver. *)
Lemma reads_only_call {A} (m : M A) w :
  reads_only m → (m w).2 = call m (this w).
Proof.
  intros Hm. unfold call. symmetry. by apply (Hm w).
Qed.

Lemma unchanged_bind {A B} (m : M A) (f : A → M B) :
  unchanged m → (∀ a, unchanged (f a)) → unchanged (bind m f).
Proof.
  intros Hm Hf w. unfold bind. specialize (Hm w).
  destruct (m w) as [w1 [a|e]]; simpl in *; subst w1; [apply Hf|done].
Qed.

Ltac unchanged_step :=
  match goal with
  | |- unchanged (bind _ _) => apply unchanged_bind; [|intros ?]
  | |- unchanged (ret _) => by intros ?
  | |- unchanged (throw _) => by intros ?
  | |- unchanged (lift _) => by intros ?
  | |- unchanged (read _) => by intros ?
  | |- unchanged self => by intros ?
  end.

Lemma unchanged_transaction_header :
  unchanged NewMessage.transactionHeaderSerialization.
Proof. unfold NewMessage.transactionHeaderSerialization. repeat unchanged_step. Qed.

Lemma unchanged_precommit_header :
  unchanged NewMessage.precommitHeaderSerialization.
Proof. unfold NewMessage.precommitHeaderSerialization. repeat unchanged_step. Qed.

Lemma unchanged_selected_header : unchanged selected_header.
Proof.
  unfold selected_header. unchanged_step; [unchanged_step|].
  destruct (strict_eq_string a "precommit");
    [apply unchanged_precommit_header|apply unchanged_transaction_header].
Qed.

Lemma unchanged_size : unchanged NewMessage.size.
Proof.
  unfold NewMessage.size. unchanged_step; [unchanged_step|].
  destruct a; unchanged_step.
Qed.

(** A computation that neither writes nor logs is determined by its
    result on the receiver. *)
Lemma run_unchanged {A} (m : M A) w :
  unchanged m → reads_only m → m w = (w, call m (this w)).
Proof.
  intros Hu Hr. rewrite <- (reads_only_call m w Hr).
  specialize (Hu w). destruct (m w) as [w1 r]. simpl in *. by subst.
Qed.

Lemma call_selected_header o :
  call selected_header o
  = if strict_eq_string (get o "messageType") "precommit"
    then call NewMessage.precommitHeaderSerialization o
    else call NewMessage.transactionHeaderSerialization o.
Proof.
  unfold call, selected_header, bind, read. simpl.
  by destruct (strict_eq_string (get o "messageType") "precommit").
Qed.

(** ** Header lengths *)

Lemma transaction_header_length o header :
  call NewMessage.transactionHeaderSerialization o = Ok header →
  length header = 56.
Proof.
  unfold call, NewMessage.transactionHeaderSerialization, bind, read, lift.
  cbn [this snd fst].
  destruct (js_length (get o "publicKey")) as [len|e]; [|discriminate].
  cbn [snd]. unfold generic.newType_serialize. intros H.
  apply (serialize_fields_at_end _ _ []) in H as (bytes & -> & Hlen);
    [|apply transaction_head_well_sized].
  exact Hlen.
Qed.

Lemma precommit_header_length o header :
  call NewMessage.precommitHeaderSerialization o = Ok header →
  length header = 58.
Proof.
  unfold call, NewMessage.precommitHeaderSerialization, bind, read, lift.
  cbn [this snd fst].
  destruct (js_length (get o "public_key")) as [len|e]; [|discriminate].
  cbn [snd]. unfold generic.newType_serialize. intros H.
  apply (serialize_fields_at_end _ _ []) in H as (bytes & -> & Hlen);
    [|apply precommit_head_well_sized].
  exact Hlen.
Qed.

Lemma selected_header_length o header :
  call selected_header o = Ok header → 56 ≤ length header.
Proof.
  rewrite call_selected_header.
  destruct (strict_eq_string (get o "messageType") "precommit"); intros H.
  - apply precommit_header_length in H. lia.
  - apply transaction_header_length in H. lia.
Qed.

Lemma serialize_run rs data cut w :
  NewMessage.serialize rs data cut w
  = match serialize_result rs data cut (this w) with
    | Ok out => ({| this := this w; console := console w ++ [out] |}, Ok out)
    | Throw e => (w, Throw e)
    end.
Proof.
  unfold serialize_result. rewrite call_selected_header.
  unfold NewMessage.serialize.
  unfold bind at 1. unfold read at 1. cbn beta iota.
  unfold bind at 1.
  assert ((if strict_eq_string (get (this w) "messageType") "precommit"
           then NewMessage.precommitHeaderSerialization
           else NewMessage.transactionHeaderSerialization) w
          = (w, if strict_eq_string (get (this w) "messageType") "precommit"
                then call NewMessage.precommitHeaderSerialization (this w)
                else call NewMessage.transactionHeaderSerialization (this w))) as ->.
  { destruct (strict_eq_string _ _).
    - apply run_unchanged;
        [apply unchanged_precommit_header|apply reads_only_precommit_header].
    - apply run_unchanged;
        [apply unchanged_transaction_header|apply reads_only_transaction_header]. }
  destruct (if strict_eq_string _ _ then _ else _) as [header|e]; [|done].
  unfold result_bind at 1.
  unfold bind, self, lift, ret, read, console_log. cbn beta iota.
  destruct (NewMessage.serialization_serialize rs [] 0 data (this w) true)
    as [body|e]; [|done].
  cbn [result_bind type_serialize primitive.Uint64].
  destruct (uint_serialize 8 (VNumber (Z.of_nat (length body))) header 48)
    as [patched|e]; [|done].
  cbn [result_bind].
  destruct (uint_serialize 8 _ (push_all patched body) _) as [marked|e]; [|done].
  cbn [result_bind].
  destruct (is_not_true cut); [|done].
  cbn [this console].
  by destruct (serialize_prop hexadecimal.Digest _ marked _).
Qed.

Lemma call_serialize rs data cut o :
  call (NewMessage.serialize rs data cut) o = serialize_result rs data cut o.
Proof.
  unfold call. rewrite serialize_run. cbn [this].
  by destruct (serialize_result rs data cut o).
Qed.

Lemma serialize_Ok rs data cut w w' out :
  NewMessage.serialize rs data cut w = (w', Ok out) →
  serialize_result rs data cut (this w) = Ok out
  ∧ w' = {| this := this w; console := console w ++ [out] |}.
Proof.
  rewrite serialize_run.
  destruct (serialize_result rs data cut (this w)) as [out'|e]; [|discriminate].
  by intros [= <- <-].
Qed.

Lemma uint_serialize_inside width v buffer from out :
  from + width ≤ length buffer →
  uint_serialize width v buffer from = Ok out →
  ∃ n, v = VNumber n ∧ (0 ≤ n < 2 ^ (8 * Z.of_nat width))%Z
       ∧ out = take from buffer ++ le_bytes width n ++ drop (from + width) buffer.
Proof.
  intros Hle. unfold uint_serialize. destruct v as [| |b|n| |s]; try discriminate.
  case_decide; [|discriminate]. intros [= <-].
  exists n. rewrite write_bytes_inside by (rewrite length_le_bytes; lia).
  by rewrite length_le_bytes.
Qed.

(** The shape of every output of [serialize]. *)
Lemma serialize_result_Ok rs data cut o out :
  serialize_result rs data cut o = Ok out →
  ∃ header body,
    call selected_header o = Ok header
    ∧ NewMessage.serialization_serialize rs [] 0 data o true = Ok body
    ∧ (Z.of_nat (length body) < 2 ^ 64)%Z
    ∧ uint_serialize 8 (VNumber (Z.of_nat (length body))) header 48
      = Ok (take 48 header ++ le_bytes 8 (Z.of_nat (length body)) ++ drop 56 header)
    ∧ ∃ marked,
        marked = (take 48 header ++ le_bytes 8 (Z.of_nat (length body)) ++ drop 56 header)
                 ++ body ++ le_bytes 8 (Z.of_nat SIGNATURE_LENGTH)
        ∧ if is_not_true cut
          then serialize_prop hexadecimal.Digest (get o "signature") marked (length marked)
               = Ok out
               ∧ ∃ s signature,
                   get o "signature" = Scalar (VString s)
                   ∧ hex_bytes s = Some signature
                   ∧ length signature = SIGNATURE_LENGTH
                   ∧ out = marked ++ signature
          else out = marked.
Proof.
  unfold serialize_result.
  destruct (call selected_header o) as [header|e] eqn:Hh; [|discriminate].
  destruct (NewMessage.serialization_serialize rs [] 0 data o true)
    as [body|e] eqn:Hb; [|discriminate].
  cbn [result_bind].
  destruct (uint_serialize 8 _ header 48) as [patched|e] eqn:Hp; [|discriminate].
  cbn [result_bind].
  destruct (uint_serialize 8 _ (push_all patched body) _)
    as [marked|e] eqn:Hm; [|discriminate].
  cbn [result_bind]. intros Hout.
  pose proof (selected_header_length _ _ Hh) as Hlen.
  apply uint_serialize_inside in Hp as (n & [= <-] & Hn & ->); [|lia].
  apply uint_serialize_at_end in Hm as (m & [= <-] & _ & ->).
  rewrite push_all_app in Hout.
  exists header, body. split; [done|]. split; [done|].
  split; [change (8 * Z.of_nat 8)%Z with 64%Z in Hn; lia|].
  split.
  { unfold uint_serialize. rewrite decide_True by done.
    rewrite write_bytes_inside by (rewrite length_le_bytes; lia).
    by rewrite length_le_bytes. }
  eexists. split; [done|].
  rewrite <- (app_assoc _ body) in Hout.
  destruct (is_not_true cut); [|by injection Hout].
  split; [done|].
  destruct (get o "signature") as [v|fs]; [|discriminate]. simpl in Hout.
  apply hex_serialize_at_end in Hout as (s & signature & -> & Hs & Hl & ->).
  by exists s, signature.
Qed.

(** ** The constructor *)

Lemma field_complete_or_incomplete f : field_complete f ∨ field_incomplete f.
Proof.
  unfold field_complete, field_incomplete.
  destruct (name f), (type f); eauto; by left.
Qed.

Lemma check_field_complete f w :
  field_complete f → NewMessage.check_field f w = (w, Ok tt).
Proof.
  intros [Hn [h Ht]]. unfold NewMessage.check_field. rewrite Ht.
  by destruct (name f).
Qed.

Lemma check_field_incomplete f :
  field_incomplete f →
  ∃ msg, constructor_message msg
         ∧ ∀ w, NewMessage.check_field f w = (w, Throw (TypeError msg)).
Proof.
  unfold NewMessage.check_field, constructor_message. intros [Hn|Ht].
  - rewrite Hn. eauto.
  - rewrite Ht. destruct (name f); eauto.
Qed.

Lemma forEach_check_complete fs w :
  Forall field_complete fs → forEach fs NewMessage.check_field w = (w, Ok tt).
Proof.
  induction 1 as [|f rest Hf _ IH]; [done|].
  simpl. unfold bind. by rewrite (check_field_complete f w Hf).
Qed.

Lemma forEach_check_incomplete fs :
  Exists field_incomplete fs →
  ∃ msg, constructor_message msg
         ∧ ∀ w, forEach fs NewMessage.check_field w = (w, Throw (TypeError msg)).
Proof.
  induction fs as [|f rest IH]; intros Hex; [by apply Exists_nil in Hex|].
  destruct (field_complete_or_incomplete f) as [Hok|Hbad].
  - destruct IH as (msg & Hmsg & Hrun).
    { apply Exists_cons in Hex as [Hbad|Hrest]; [|done].
      destruct Hok as [Hn [h Ht]], Hbad as [?|?]; congruence. }
    exists msg. split; [done|]. intros w. simpl. unfold bind.
    by rewrite (check_field_complete f w Hok).
  - destruct (check_field_incomplete f Hbad) as (msg & Hmsg & Hrun).
    exists msg. split; [done|]. intros w. simpl. unfold bind. by rewrite Hrun.
Qed.

Lemma fields_complete_or_incomplete fs :
  Forall field_complete fs ∨ Exists field_incomplete fs.
Proof.
  induction fs as [|f rest [IH|IH]].
  - left. constructor.
  - destruct (field_complete_or_incomplete f).
    + left. by constructor.
    + right. by apply Exists_cons_hd.
  - right. by apply Exists_cons_tl.
Qed.

Lemma constructor_complete type fs w :
  get type "fields" = Fields fs → Forall field_complete fs →
  NewMessage.constructor type w
  = ({| this := assigned type (this w); console := console w |}, Ok tt).
Proof.
  intros Hf Hfs. unfold NewMessage.constructor. rewrite Hf.
  unfold bind at 1. unfold ret at 1.
  unfold bind at 1. rewrite (forEach_check_complete fs w Hfs).
  unfold assigned. rewrite Hf. reflexivity.
Qed.

Lemma constructor_incomplete type fs :
  get type "fields" = Fields fs → Exists field_incomplete fs →
  ∃ msg, constructor_message msg
         ∧ ∀ w, NewMessage.constructor type w = (w, Throw (TypeError msg)).
Proof.
  intros Hf Hfs.
  destruct (forEach_check_incomplete fs Hfs) as (msg & Hmsg & Hrun).
  exists msg. split; [done|]. intros w.
  unfold NewMessage.constructor. rewrite Hf.
  unfold bind at 1. unfold ret at 1.
  unfold bind at 1. by rewrite Hrun.
Qed.

(** Every object the constructor returns is the eight assignments made
    on a fresh object, from a descriptor whose fields are complete. *)
Lemma newMessage_Ok type o :
  newMessage type = Ok o →
  o = assigned type ∅
  ∧ ∃ fs, get type "fields" = Fields fs ∧ Forall field_complete fs.
Proof.
  unfold newMessage, NewMessage.new.
  destruct (get type "fields") as [v|fs] eqn:Hf.
  - unfold NewMessage.constructor. rewrite Hf. discriminate.
  - destruct (fields_complete_or_incomplete fs) as [Hok|Hbad].
    + rewrite (constructor_complete type fs _ Hf Hok). simpl.
      intros [= <-]. eauto.
    + destruct (constructor_incomplete type fs Hf Hbad) as (msg & _ & ->).
      discriminate.
Qed.

Lemma get_insert_ne (o : gmap string prop) k k' x :
  k ≠ k' → get (<[k := x]> o) k' = get o k'.
Proof. intros Hk. unfold get. by rewrite lookup_insert_ne. Qed.

Lemma get_insert_eq (o : gmap string prop) k x : get (<[k := x]> o) k = x.
Proof. unfold get. by rewrite lookup_insert_eq. Qed.

Lemma assigned_lookup_other type o k :
  k ∉ ["protocol_version"; "message_id"; "service_id"; "signature"; "fields";
       "public_key"; "consensus_tag"; "message_type"] →
  assigned type o !! k = o !! k.
Proof.
  intros Hk. unfold assigned.
  repeat (rewrite lookup_insert_ne; [|intros <-; apply Hk; solve [repeat constructor]]).
  done.
Qed.

(** ** The properties of the envelope *)

(** C7.  Constructing an envelope from a type descriptor that has a field
    with an undefined name or an undefined type fails with a [TypeError],
    and the receiver is left exactly as it was: nothing is assigned
    before the error is raised, and [newMessage] returns no object. *)
Theorem constructor_rejects_incomplete_field type fs w :
  get type "fields" = Fields fs →
  Exists field_incomplete fs →
  ∃ msg, constructor_message msg
         ∧ NewMessage.constructor type w = (w, Throw (TypeError msg))
         ∧ newMessage type = Throw (TypeError msg).
Proof.
  intros Hf Hbad.
  destruct (constructor_incomplete type fs Hf Hbad) as (msg & Hmsg & Hrun).
  exists msg. split; [done|]. split; [apply Hrun|].
  unfold newMessage, NewMessage.new. by rewrite Hrun.
Qed.

Lemma constructor_rejects_incomplete_field_witness :
  get (type_with_fields nameless_fields) "fields" = Fields nameless_fields
  ∧ Exists field_incomplete nameless_fields
  ∧ ∃ msg, constructor_message msg
           ∧ NewMessage.constructor (type_with_fields nameless_fields) example_world
             = (example_world, Throw (TypeError msg))
           ∧ newMessage (type_with_fields nameless_fields) = Throw (TypeError msg).
Proof.
  assert (get (type_with_fields nameless_fields) "fields" = Fields nameless_fields)
    as Hf by reflexivity.
  assert (Exists field_incomplete nameless_fields) as Hbad
    by (apply Exists_cons_tl, Exists_cons_hd; left; reflexivity).
  split; [exact Hf|]. split; [exact Hbad|].
  exact (constructor_rejects_incomplete_field _ _ example_world Hf Hbad).
Defined.


Example constructor_nameless_field :
  newMessage (type_with_fields nameless_fields)
  = Throw (TypeError "Name prop is missed.").
Proof. reflexivity. Qed.

Example constructor_typeless_field :
  NewMessage.constructor (type_with_fields typeless_fields) example_world
  = (example_world, Throw (TypeError "Type prop is missed.")).
Proof. reflexivity. Qed.

Lemma newMessage_complete type fs :
  get type "fields" = Fields fs → Forall field_complete fs →
  newMessage type = Ok (assigned type ∅).
Proof.
  intros Hf Hfs. unfold newMessage, NewMessage.new.
  by rewrite (constructor_complete type fs _ Hf Hfs).
Qed.

Lemma amount_field_complete : field_complete amount_field.
Proof. split; [discriminate|by eexists]. Qed.

Lemma newMessage_example kind signature :
  newMessage (example_type kind signature) = Ok (example_envelope kind signature).
Proof.
  apply (newMessage_complete _ [amount_field]); [reflexivity|].
  repeat constructor; apply amount_field_complete.
Qed.

Lemma transaction_header_without_publicKey o :
  get o "publicKey" = Scalar VUndefined →
  call NewMessage.transactionHeaderSerialization o
  = Throw (TypeError "Cannot read properties of undefined").
Proof.
  intros H. unfold call, NewMessage.transactionHeaderSerialization, bind, read, lift.
  cbn [this]. by rewrite H.
Qed.

Ltac not_assigned_tac :=
  repeat (apply not_elem_of_cons; split; [done|]); apply not_elem_of_nil.

Lemma transaction_header_ignores o k x :
  k ∉ ["protocol_version"; "publicKey"; "service_id"] →
  call NewMessage.transactionHeaderSerialization (<[k := x]> o)
  = call NewMessage.transactionHeaderSerialization o.
Proof.
  intros Hk.
  unfold call, NewMessage.transactionHeaderSerialization, bind, read, lift.
  cbn [this].
  rewrite !(get_insert_ne o k) by (intros ->; apply Hk; solve [repeat constructor]).
  by destruct (js_length (get o "publicKey")).
Qed.

Lemma constructed_get_other type o k :
  newMessage type = Ok o →
  k ∉ ["protocol_version"; "message_id"; "service_id"; "signature"; "fields";
       "public_key"; "consensus_tag"; "message_type"] →
  o !! k = None.
Proof.
  intros Hnew Hk. apply newMessage_Ok in Hnew as [-> _].
  by rewrite assigned_lookup_other.
Qed.

(** C10.  In every envelope built by [newMessage] the property
    [publicKey] is not there (the constructor assigns [public_key]), so
    the transaction header reads [undefined] for its [pk_size] and
    [pk_data], which is a [TypeError]; and the public key given to the
    constructor has no influence on that path. *)
Theorem constructed_envelope_has_no_publicKey type o :
  newMessage type = Ok o →
  o !! "publicKey" = None
  ∧ get o "publicKey" = Scalar VUndefined
  ∧ get o "public_key" = get type "public_key"
  ∧ call NewMessage.transactionHeaderSerialization o
    = Throw (TypeError "Cannot read properties of undefined")
  ∧ ∀ x, call NewMessage.transactionHeaderSerialization (<["public_key" := x]> o)
         = call NewMessage.transactionHeaderSerialization o.
Proof.
  intros Hnew.
  assert (o !! "publicKey" = None) as Hnone
    by (apply (constructed_get_other type); [done|not_assigned_tac]).
  assert (get o "publicKey" = Scalar VUndefined) as Hundef
    by (unfold get; by rewrite Hnone).
  split; [done|]. split; [done|]. split.
  { apply newMessage_Ok in Hnew as [-> _]. unfold assigned.
    rewrite !get_insert_ne by done. apply get_insert_eq. }
  split; [by apply transaction_header_without_publicKey|].
  intros x. apply transaction_header_ignores. not_assigned_tac.
Qed.

Lemma constructed_envelope_has_no_publicKey_witness :
  newMessage (example_type "transaction" (VString example_signature))
  = Ok (example_envelope "transaction" (VString example_signature))
  ∧ get (example_envelope "transaction" (VString example_signature)) "public_key"
    = Scalar (VString example_public_key)
  ∧ call NewMessage.transactionHeaderSerialization
      (example_envelope "transaction" (VString example_signature))
    = Throw (TypeError "Cannot read properties of undefined").
Proof.
  pose proof (newMessage_example "transaction" (VString example_signature)) as Hnew.
  split; [exact Hnew|].
  destruct (constructed_envelope_has_no_publicKey _ _ Hnew)
    as (_ & _ & Hpk & Hthrow & _).
  split; [exact Hpk|exact Hthrow].
Defined.

(** C1.  An envelope built by [newMessage] keeps its message kind in
    [message_type], and [serialize] tests [messageType], which no
    constructed envelope has: whatever kind was given at construction,
    'precommit' included, [serialize] takes the transaction header (and
    fails there on the absent [publicKey]). *)
Theorem serialize_ignores_constructed_kind rs type o data cut :
  newMessage type = Ok o →
  get o "message_type" = get type "message_type"
  ∧ get o "messageType" = Scalar VUndefined
  ∧ call selected_header o = call NewMessage.transactionHeaderSerialization o
  ∧ call (NewMessage.serialize rs data cut) o
    = Throw (TypeError "Cannot read properties of undefined").
Proof.
  intros Hnew.
  assert (get o "messageType" = Scalar VUndefined) as Hkind.
  { unfold get. rewrite (constructed_get_other type); [done|done|not_assigned_tac]. }
  assert (get o "publicKey" = Scalar VUndefined) as Hkey.
  { unfold get. rewrite (constructed_get_other type); [done|done|not_assigned_tac]. }
  assert (call selected_header o = call NewMessage.transactionHeaderSerialization o)
    as Hsel by (rewrite call_selected_header; by rewrite Hkind).
  split.
  { apply newMessage_Ok in Hnew as [-> _]. unfold assigned. apply get_insert_eq. }
  split; [done|]. split; [done|].
  rewrite call_serialize. unfold serialize_result. rewrite Hsel.
  by rewrite (transaction_header_without_publicKey o Hkey).
Qed.

Lemma serialize_ignores_constructed_kind_witness :
  newMessage (example_type "precommit" (VString example_signature))
  = Ok (example_envelope "precommit" (VString example_signature))
  ∧ get (example_envelope "precommit" (VString example_signature)) "message_type"
    = Scalar (VString "precommit")
  ∧ call selected_header (example_envelope "precommit" (VString example_signature))
    = call NewMessage.transactionHeaderSerialization
        (example_envelope "precommit" (VString example_signature))
  ∧ call (NewMessage.serialize fixed_record_serialize example_data (VBool true))
      (example_envelope "precommit" (VString example_signature))
    = Throw (TypeError "Cannot read properties of undefined").
Proof.
  pose proof (newMessage_example "precommit" (VString example_signature)) as Hnew.
  split; [exact Hnew|].
  destruct (serialize_ignores_constructed_kind fixed_record_serialize _ _
              example_data (VBool true) Hnew) as (Hkind & _ & Hsel & Hthrow).
  split; [exact Hkind|]. split; [exact Hsel|exact Hthrow].
Defined.

(** With [publicKey] assigned by the caller, the envelope constructed
    with the kind 'precommit' is serialized to the bytes of a
    transaction: [tx_tag] 0 at offset 42, not [consensus_tag] 7. *)
Example precommit_kind_serialized_as_transaction :
  call (NewMessage.serialize fixed_record_serialize example_data (VBool true))
    (with_publicKey (example_envelope "precommit" (VString example_signature)))
  = Ok example_preimage
  ∧ take 4 (drop 42 example_preimage) = le_bytes 4 0.
Proof. split; vm_compute; reflexivity. Qed.

Lemma schema_size_spec_cons f rest :
  schema_size_spec (f :: rest) = slot_width f + schema_size_spec rest.
Proof. reflexivity. Qed.

Lemma fold_size_step fs (acc : Z) :
  Forall (λ f, is_Some (type f)) fs →
  fold_left NewMessage.size_step fs (Ok (VNumber acc))
  = Ok (VNumber (acc + Z.of_nat (schema_size_spec fs))).
Proof.
  intros Hfs. revert acc. induction Hfs as [|f rest [h Hf] _ IH]; intros acc.
  - simpl. f_equal. f_equal. unfold schema_size_spec. simpl. lia.
  - cbn [fold_left]. unfold NewMessage.size_step at 2.
    unfold generic.fieldIsFixed. rewrite Hf. cbn [result_bind from_option].
    assert (NewMessage.js_add (VNumber acc) (Some (slot_width f))
            = VNumber (acc + Z.of_nat (slot_width f))) as Hadd by done.
    assert ((if bool_decide (is_Some (type_size h))
             then Ok (NewMessage.js_add (VNumber acc) (type_size h))
             else Ok (NewMessage.js_add (VNumber acc) (Some 8)))
            = Ok (VNumber (acc + Z.of_nat (slot_width f)))) as ->.
    { unfold slot_width. rewrite Hf.
      destruct (type_size h) as [n|] eqn:Hn.
      - by rewrite bool_decide_true.
      - rewrite bool_decide_false; [done|]. by intros [? ?]. }
    rewrite IH. f_equal. f_equal. rewrite schema_size_spec_cons. lia.
Qed.

(** C6.  For every schema whose fields have a type, [size()] returns the
    sum over the fields of the field's fixed width
    ([field.type.size()]) when the field is fixed, and 8 when it is
    variable; it changes neither the envelope nor the console. *)
Theorem size_is_sum_of_slot_widths w fs :
  get (this w) "fields" = Fields fs →
  Forall (λ f, is_Some (type f)) fs →
  NewMessage.size w = (w, Ok (VNumber (Z.of_nat (schema_size_spec fs)))).
Proof.
  intros Hf Hfs. unfold NewMessage.size, bind, read, lift. rewrite Hf.
  by rewrite (fold_size_step fs 0 Hfs).
Qed.

Lemma size_is_sum_of_slot_widths_witness :
  NewMessage.size mixed_world = (mixed_world, Ok (VNumber 48)).
Proof.
  apply (size_is_sum_of_slot_widths mixed_world mixed_fields).
  - reflexivity.
  - repeat (apply Forall_cons; split; [by eexists|]). apply Forall_nil_2.
Defined.

(** C2.  The two heads do not have the same layout: the precommit head
    declares [precommit_tag] as a [Uint32], so it takes 4 bytes at offset
    46, [precommit_len] starts at offset 50 and the head is 58 bytes
    long, where the transaction head has [service_id] in 2 bytes at
    offset 46, [full_tx_len] at offset 48 and 56 bytes in all.  On an
    envelope serialized with the precommit head, the write of the body
    length at offset 48 lands in the upper half of [precommit_tag] and
    leaves [precommit_len] at 0. *)
Theorem precommit_head_layout_differs :
  layout NewMessage.transaction_head_fields 0
  = [ (VString "protocol_version", 0, 2); (VString "pk_size", 2, 8);
      (VString "pk_data", 10, 32); (VString "tx_tag", 42, 4);
      (VString "service_id", 46, 2); (VString "full_tx_len", 48, 8) ]
  ∧ layout NewMessage.precommit_head_fields 0
    = [ (VString "protocol_version", 0, 2); (VString "pk_size", 2, 8);
        (VString "pk_data", 10, 32); (VString "consensus_tag", 42, 4);
        (VString "precommit_tag", 46, 4); (VString "precommit_len", 50, 8) ]
  ∧ call NewMessage.precommitHeaderSerialization
      (example_envelope "precommit" (VString example_signature))
    = Ok (le_bytes 2 0 ++ le_bytes 8 32 ++ example_public_key_bytes
          ++ le_bytes 4 7 ++ le_bytes 4 258 ++ le_bytes 8 0)
  ∧ call (NewMessage.serialize fixed_record_serialize example_data (VBool true))
      (with_messageType "precommit"
         (example_envelope "precommit" (VString example_signature)))
    = Ok (le_bytes 2 0 ++ le_bytes 8 32 ++ example_public_key_bytes
          ++ le_bytes 4 7 ++ le_bytes 4 (258 + 8 * 2 ^ 16) ++ le_bytes 8 0
          ++ le_bytes 8 100 ++ le_bytes 8 64).
Proof.
  split; [reflexivity|]. split; [reflexivity|].
  split; vm_compute; reflexivity.
Qed.

(** Every output of [serialize] starts with the header, patched at
    offsets 48 to 55, followed by the body. *)
Lemma serialize_result_shape rs data cut o out :
  serialize_result rs data cut o = Ok out →
  ∃ header body tail,
    call selected_header o = Ok header
    ∧ 56 ≤ length header
    ∧ NewMessage.serialization_serialize rs [] 0 data o true = Ok body
    ∧ (Z.of_nat (length body) < 2 ^ 64)%Z
    ∧ out = take 48 header ++ le_bytes 8 (Z.of_nat (length body))
            ++ drop 56 header ++ body ++ tail.
Proof.
  intros H. apply serialize_result_Ok in H
    as (header & body & Hh & Hb & Hn & _ & marked & -> & Hout).
  exists header, body.
  destruct (is_not_true cut).
  - destruct Hout as (_ & s & signature & _ & _ & _ & ->).
    exists (le_bytes 8 (Z.of_nat SIGNATURE_LENGTH) ++ signature).
    repeat split; [done|by eapply selected_header_length|done|done|].
    by rewrite <- !app_assoc.
  - subst out. exists (le_bytes 8 (Z.of_nat SIGNATURE_LENGTH)).
    repeat split; [done|by eapply selected_header_length|done|done|].
    by rewrite <- !app_assoc.
Qed.

(** C3.  Whenever [serialize] returns, for any schema and data object,
    the 8 bytes at offset 48 of its output are the encoding of the
    length of the body, and the body is what follows the header. *)
Theorem serialize_length_field rs data cut o out :
  call (NewMessage.serialize rs data cut) o = Ok out →
  ∃ header body,
    call selected_header o = Ok header
    ∧ NewMessage.serialization_serialize rs [] 0 data o true = Ok body
    ∧ take 8 (drop 48 out) = le_bytes 8 (Z.of_nat (length body))
    ∧ le_value (take 8 (drop 48 out)) = Z.of_nat (length body)
    ∧ take (length body) (drop (length header) out) = body.
Proof.
  rewrite call_serialize. intros H.
  apply serialize_result_shape in H
    as (header & body & tail & Hh & Hlen & Hb & Hn & ->).
  exists header, body. split; [done|]. split; [done|].
  assert (take 8 (drop 48 (take 48 header ++ le_bytes 8 (Z.of_nat (length body))
                            ++ drop 56 header ++ body ++ tail))
          = le_bytes 8 (Z.of_nat (length body))) as Hfield.
  { rewrite drop_app_length' by (rewrite length_take; lia).
    by rewrite take_app_length' by (by rewrite length_le_bytes). }
  split; [done|]. split.
  - rewrite Hfield. apply le_value_le_bytes.
    change (8 * Z.of_nat 8)%Z with 64%Z. lia.
  - rewrite !app_assoc. rewrite <- (app_assoc _ body tail).
    rewrite drop_app_length'.
    + by rewrite take_app_length.
    + rewrite !length_app, length_take, length_le_bytes, length_drop. lia.
Qed.

Lemma serialize_length_field_witness :
  ∃ header body,
    call selected_header (this example_world) = Ok header
    ∧ NewMessage.serialization_serialize fixed_record_serialize [] 0
        example_data (this example_world) true = Ok body
    ∧ take 8 (drop 48 example_preimage) = le_bytes 8 (Z.of_nat (length body))
    ∧ le_value (take 8 (drop 48 example_preimage)) = Z.of_nat (length body)
    ∧ take (length body) (drop (length header) example_preimage) = body.
Proof.
  apply (serialize_length_field fixed_record_serialize example_data (VBool true)).
  vm_compute. reflexivity.
Defined.

(** C8.  Whenever [serialize] returns, its writes were these: the write
    of the body length at offset 48, which keeps the length of the header
    and every byte outside offsets 48 to 55; then the body, the
    signature length and, unless cut, the signature, each of which left
    the buffer it found as a prefix of the buffer it made. *)
Theorem serialize_buffer_writes rs data cut o out :
  call (NewMessage.serialize rs data cut) o = Ok out →
  ∃ header body patched marked,
    call selected_header o = Ok header
    ∧ NewMessage.serialization_serialize rs [] 0 data o true = Ok body
    ∧ type_serialize primitive.Uint64 (VNumber (Z.of_nat (length body))) header 48
      = Ok patched
    ∧ length patched = length header
    ∧ (∀ i, ¬ (48 ≤ i < 56) → patched !! i = header !! i)
    ∧ push_all patched body = patched ++ body
    ∧ type_serialize primitive.Uint64 (VNumber (Z.of_nat SIGNATURE_LENGTH))
        (patched ++ body) (length (patched ++ body))
      = Ok marked
    ∧ marked = (patched ++ body) ++ le_bytes 8 (Z.of_nat SIGNATURE_LENGTH)
    ∧ if is_not_true cut
      then ∃ signature,
             serialize_prop hexadecimal.Digest (get o "signature")
               marked (length marked) = Ok out
             ∧ length signature = SIGNATURE_LENGTH
             ∧ out = marked ++ signature
      else out = marked.
Proof.
  rewrite call_serialize. intros H.
  pose proof H as Hshape.
  apply serialize_result_Ok in H
    as (header & body & Hh & Hb & Hn & Hp & marked & Hmarked & Hout).
  pose proof (selected_header_length _ _ Hh) as Hlen.
  exists header, body,
    (take 48 header ++ le_bytes 8 (Z.of_nat (length body)) ++ drop 56 header),
    marked.
  split; [done|]. split; [done|]. split; [exact Hp|].
  split.
  { rewrite !length_app, length_take, length_le_bytes, length_drop. lia. }
  split.
  { intros i Hi. destruct (decide (i < 48)) as [Hlt|Hge].
    - rewrite lookup_app_l by (rewrite length_take; lia).
      by rewrite lookup_take_lt.
    - rewrite lookup_app_r by (rewrite length_take; lia).
      rewrite lookup_app_r by (rewrite length_take, length_le_bytes; lia).
      rewrite lookup_drop, length_take, length_le_bytes. f_equal. lia. }
  split; [apply push_all_app|].
  split.
  { cbn [type_serialize primitive.Uint64]. unfold uint_serialize.
    rewrite decide_True by (by vm_compute).
    rewrite write_bytes_at_end, Hmarked. by rewrite <- !app_assoc. }
  split; [by rewrite Hmarked, <- !app_assoc|].
  destruct (is_not_true cut); [|done].
  destruct Hout as (Hser & s & signature & _ & _ & Hl & ->). by exists signature.
Qed.

Lemma serialize_buffer_writes_witness :
  ∃ header body patched marked,
    call selected_header (signed_envelope example_signature) = Ok header
    ∧ NewMessage.serialization_serialize fixed_record_serialize [] 0
        example_data (signed_envelope example_signature) true = Ok body
    ∧ type_serialize primitive.Uint64 (VNumber (Z.of_nat (length body))) header 48
      = Ok patched
    ∧ length patched = length header
    ∧ (∀ i, ¬ (48 ≤ i < 56) → patched !! i = header !! i)
    ∧ push_all patched body = patched ++ body
    ∧ type_serialize primitive.Uint64 (VNumber (Z.of_nat SIGNATURE_LENGTH))
        (patched ++ body) (length (patched ++ body))
      = Ok marked
    ∧ marked = (patched ++ body) ++ le_bytes 8 (Z.of_nat SIGNATURE_LENGTH)
    ∧ ∃ signature,
        serialize_prop hexadecimal.Digest
          (get (signed_envelope example_signature) "signature")
          marked (length marked)
        = Ok (example_preimage ++ example_signature_bytes)
        ∧ length signature = SIGNATURE_LENGTH
        ∧ example_preimage ++ example_signature_bytes = marked ++ signature.
Proof.
  apply (serialize_buffer_writes fixed_record_serialize example_data (VBool false)
           (signed_envelope example_signature)
           (example_preimage ++ example_signature_bytes)).
  vm_compute. reflexivity.
Defined.

(** The design document's example: 72 bytes without the signature, 136
    with it. *)
Example serialize_example_lengths :
  call (NewMessage.serialize fixed_record_serialize example_data (VBool true))
    (signed_envelope example_signature) = Ok example_preimage
  ∧ length example_preimage = 72
  ∧ call (NewMessage.serialize fixed_record_serialize example_data VUndefined)
      (signed_envelope example_signature)
    = Ok (example_preimage ++ example_signature_bytes)
  ∧ length (example_preimage ++ example_signature_bytes) = 136.
Proof. repeat split; vm_compute; reflexivity. Qed.

Lemma serialize_result_cut rs data cut o preimage :
  serialize_result rs data (VBool true) o = Ok preimage →
  serialize_result rs data cut o
  = if is_not_true cut
    then serialize_prop hexadecimal.Digest (get o "signature")
           preimage (length preimage)
    else Ok preimage.
Proof.
  unfold serialize_result.
  destruct (call selected_header o) as [header|e]; [|discriminate].
  destruct (NewMessage.serialization_serialize rs [] 0 data o true)
    as [body|e]; [|discriminate].
  cbn [result_bind].
  destruct (uint_serialize 8 _ header 48) as [patched|e]; [|discriminate].
  cbn [result_bind].
  destruct (uint_serialize 8 _ (push_all patched body) _)
    as [marked|e]; [|discriminate].
  cbn [result_bind is_not_true]. by intros [= ->].
Qed.

(** C4, as the code has it.  When [serialize(data, true)] returns a
    preimage, [serialize(data, cutSignature)] with any other
    [cutSignature] is the [Digest] codec applied to the signature stored
    in the envelope, writing at the end of that preimage: when it
    returns, its output is the preimage followed by the 64 bytes that
    the stored signature stands for.  Nothing is signed. *)
Theorem serialize_appends_stored_signature rs data cut o preimage :
  is_not_true cut = true →
  call (NewMessage.serialize rs data (VBool true)) o = Ok preimage →
  call (NewMessage.serialize rs data cut) o
  = serialize_prop hexadecimal.Digest (get o "signature") preimage (length preimage)
  ∧ ∀ out,
      call (NewMessage.serialize rs data cut) o = Ok out →
      ∃ s signature,
        get o "signature" = Scalar (VString s)
        ∧ hex_bytes s = Some signature
        ∧ length signature = SIGNATURE_LENGTH
        ∧ out = preimage ++ signature.
Proof.
  intros Hcut. rewrite !call_serialize. intros Hpre.
  rewrite (serialize_result_cut rs data cut o preimage Hpre), Hcut.
  split; [done|]. intros out Hout.
  destruct (get o "signature") as [v|fs]; [|discriminate]. simpl in Hout.
  apply hex_serialize_at_end in Hout as (s & signature & -> & Hs & Hl & ->).
  by exists s, signature.
Qed.

Lemma serialize_appends_stored_signature_witness :
  call (NewMessage.serialize fixed_record_serialize example_data (VBool false))
    (signed_envelope other_signature)
  = serialize_prop hexadecimal.Digest
      (get (signed_envelope other_signature) "signature")
      example_preimage (length example_preimage)
  ∧ ∀ out,
      call (NewMessage.serialize fixed_record_serialize example_data (VBool false))
        (signed_envelope other_signature) = Ok out →
      ∃ s signature,
        get (signed_envelope other_signature) "signature" = Scalar (VString s)
        ∧ hex_bytes s = Some signature
        ∧ length signature = SIGNATURE_LENGTH
        ∧ out = example_preimage ++ signature.
Proof.
  apply (serialize_appends_stored_signature fixed_record_serialize example_data
           (VBool false) (signed_envelope other_signature) example_preimage).
  - reflexivity.
  - vm_compute. reflexivity.
Defined.

(** C4, as stated, fails: no signer, whatever its key, makes the output
    of [serialize(data, false)] the preimage followed by the signature of
    the preimage.  Two envelopes that differ in their stored signature
    only have the same preimage and different outputs. *)
Lemma serialize_signature_is_not_computed :
  ¬ ∃ signer : list Z → list Z,
      ∀ o data preimage,
        call (NewMessage.serialize fixed_record_serialize data (VBool true)) o
        = Ok preimage →
        call (NewMessage.serialize fixed_record_serialize data (VBool false)) o
        = Ok (preimage ++ signer preimage).
Proof.
  intros [signer Hsigner].
  assert (∀ s, call (NewMessage.serialize fixed_record_serialize example_data
                       (VBool true)) (signed_envelope s) = Ok example_preimage)
    as Hpre.
  { intros s. rewrite !call_serialize.
    unfold signed_envelope, with_publicKey, example_envelope, assigned, example_type.
    vm_compute. reflexivity. }
  pose proof (Hsigner _ _ _ (Hpre example_signature)) as H1.
  pose proof (Hsigner _ _ _ (Hpre other_signature)) as H2.
  assert (call (NewMessage.serialize fixed_record_serialize example_data (VBool false))
            (signed_envelope example_signature)
          = Ok (example_preimage ++ example_signature_bytes)) as E1
    by (vm_compute; reflexivity).
  assert (call (NewMessage.serialize fixed_record_serialize example_data (VBool false))
            (signed_envelope other_signature)
          = Ok (example_preimage ++ other_signature_bytes)) as E2
    by (vm_compute; reflexivity).
  rewrite E1 in H1. rewrite E2 in H2.
  assert (example_signature_bytes = other_signature_bytes) as Heq.
  { transitivity (signer example_preimage).
    - apply (app_inv_head example_preimage). congruence.
    - apply (app_inv_head example_preimage). congruence. }
  vm_compute in Heq. discriminate.
Qed.

(** C5.  [serialize(data, true)] is deterministic and idempotent: a call
    leaves the envelope as it was, a second call with the same data
    returns what the first returned, and so does a call from any other
    state of the console. *)
Theorem serialize_preimage_deterministic rs data w :
  this (NewMessage.serialize rs data (VBool true) w).1 = this w
  ∧ (NewMessage.serialize rs data (VBool true)
       (NewMessage.serialize rs data (VBool true) w).1).2
    = (NewMessage.serialize rs data (VBool true) w).2
  ∧ ∀ w', this w' = this w →
          (NewMessage.serialize rs data (VBool true) w').2
          = (NewMessage.serialize rs data (VBool true) w).2.
Proof.
  destruct (reads_only_serialize rs data (VBool true) w) as [Hthis Hres].
  split; [done|]. split; [by apply Hres|done].
Qed.

Lemma serialize_preimage_deterministic_witness :
  (NewMessage.serialize fixed_record_serialize example_data (VBool true)
     (NewMessage.serialize fixed_record_serialize example_data (VBool true)
        example_world).1).2
  = Ok example_preimage
  ∧ (NewMessage.serialize fixed_record_serialize example_data (VBool true)
       example_world).2
    = Ok example_preimage.
Proof.
  assert ((NewMessage.serialize fixed_record_serialize example_data (VBool true)
             example_world).2 = Ok example_preimage) as Hfirst
    by (vm_compute; reflexivity).
  split; [|exact Hfirst].
  destruct (serialize_preimage_deterministic fixed_record_serialize example_data
              example_world) as (_ & Hsecond & _).
  exact (eq_trans Hsecond Hfirst).
Defined.

(** C9, as the code has it.  An envelope whose message kind is anything
    but 'precommit' is serialized with the transaction header, and
    [serialize] returns for it exactly what it returns for the same
    envelope with the kind 'transaction'. *)
Theorem serialize_other_kind_as_transaction rs data cut o :
  strict_eq_string (get o "messageType") "precommit" = false →
  call selected_header o = call NewMessage.transactionHeaderSerialization o
  ∧ call (NewMessage.serialize rs data cut) o
    = call (NewMessage.serialize rs data cut) (with_messageType "transaction" o).
Proof.
  intros Hkind.
  assert (call selected_header o = call NewMessage.transactionHeaderSerialization o)
    as Hsel by (rewrite call_selected_header; by rewrite Hkind).
  split; [done|].
  rewrite !call_serialize. unfold serialize_result.
  rewrite Hsel. rewrite call_selected_header.
  unfold with_messageType. rewrite get_insert_eq.
  cbn [strict_eq_string]. rewrite bool_decide_false by done.
  rewrite transaction_header_ignores by not_assigned_tac.
  unfold NewMessage.serialization_serialize.
  by rewrite !(get_insert_ne o "messageType") by done.
Qed.

Lemma serialize_other_kind_as_transaction_witness :
  strict_eq_string (get unknown_kind_envelope "messageType") "precommit" = false
  ∧ call selected_header unknown_kind_envelope
    = call NewMessage.transactionHeaderSerialization unknown_kind_envelope
  ∧ call (NewMessage.serialize fixed_record_serialize example_data (VBool true))
      unknown_kind_envelope
    = call (NewMessage.serialize fixed_record_serialize example_data (VBool true))
        (with_messageType "transaction" unknown_kind_envelope).
Proof.
  assert (strict_eq_string (get unknown_kind_envelope "messageType") "precommit"
          = false) as Hkind by reflexivity.
  split; [exact Hkind|].
  exact (serialize_other_kind_as_transaction fixed_record_serialize example_data
           (VBool true) unknown_kind_envelope Hkind).
Defined.

(** C9, as stated, fails: an envelope whose message kind is neither
    'transaction' nor 'precommit' is serialized, with the transaction
    header, and no error is raised. *)
Lemma unknown_kind_is_serialized :
  get unknown_kind_envelope "message_type" = Scalar (VString "unknown")
  ∧ get unknown_kind_envelope "messageType" = Scalar (VString "unknown")
  ∧ call (NewMessage.serialize fixed_record_serialize example_data (VBool true))
      unknown_kind_envelope
    = Ok example_preimage
  ∧ call (NewMessage.serialize fixed_record_serialize example_data (VBool true))
      unknown_kind_envelope
    ≠ Throw UnknownMessageKindError
  ∧ call (NewMessage.serialize fixed_record_serialize example_data (VBool true))
      (example_envelope "unknown" (VString example_signature))
    = call (NewMessage.serialize fixed_record_serialize example_data (VBool true))
        (example_envelope "transaction" (VString example_signature)).
Proof.
  assert (call (NewMessage.serialize fixed_record_serialize example_data (VBool true))
            unknown_kind_envelope = Ok example_preimage) as Hout
    by (vm_compute; reflexivity).
  split; [reflexivity|]. split; [reflexivity|]. split; [exact Hout|].
  split; [rewrite Hout; discriminate|].
  vm_compute. reflexivity.
Qed.

(** ** Further properties of the envelope *)

Lemma assigned_lookup type o k :
  assigned type o !! k
  = if decide (k ∈ constructor_keys) then Some (get type k) else o !! k.
Proof.
  case_decide as Hk.
  - unfold constructor_keys in Hk. unfold assigned.
    repeat (apply elem_of_cons in Hk as [->|Hk];
            [repeat (rewrite lookup_insert_ne by done);
             by rewrite lookup_insert_eq|]).
    by apply elem_of_nil in Hk.
  - by apply assigned_lookup_other.
Qed.




Lemma forEach_check_first pre f post w :
  Forall field_complete pre → field_incomplete f →
  forEach (pre ++ f :: post) NewMessage.check_field w
  = (w, Throw (TypeError (incomplete_message f))).
Proof.
  intros Hpre Hf. induction Hpre as [|g pre Hg _ IH]; simpl; unfold bind.
  - unfold NewMessage.check_field, incomplete_message, throw.
    destruct Hf as [Hn|Ht].
    + by rewrite Hn.
    + rewrite Ht. by destruct (name f).
  - by rewrite (check_field_complete g w Hg).
Qed.

(** X3.  The constructor reports the first incomplete field, whatever
    follows it: 'Name prop is missed.' when that field has no name (also
    when it has no type either), 'Type prop is missed.' otherwise. *)
Theorem constructor_reports_first_incomplete_field type pre f post w :
  get type "fields" = Fields (pre ++ f :: post) →
  Forall field_complete pre →
  field_incomplete f →
  NewMessage.constructor type w = (w, Throw (TypeError (incomplete_message f)))
  ∧ newMessage type = Throw (TypeError (incomplete_message f)).
Proof.
  intros Hf Hpre Hbad.
  assert (∀ w, NewMessage.constructor type w
               = (w, Throw (TypeError (incomplete_message f)))) as Hrun.
  { intros w0. unfold NewMessage.constructor. rewrite Hf.
    unfold bind at 1. unfold ret at 1. unfold bind at 1.
    by rewrite (forEach_check_first pre f post w0 Hpre Hbad). }
  split; [apply Hrun|]. unfold newMessage, NewMessage.new. by rewrite Hrun.
Qed.

Lemma constructor_reports_first_incomplete_field_witness :
  NewMessage.constructor (type_with_fields both_missing_fields) example_world
  = (example_world, Throw (TypeError "Name prop is missed."))
  ∧ newMessage (type_with_fields both_missing_fields)
    = Throw (TypeError "Name prop is missed.").
Proof.
  apply (constructor_reports_first_incomplete_field
           (type_with_fields both_missing_fields) [amount_field]
           {| name := VUndefined; type := None |}
           [ {| name := VString "to"; type := None |} ]).
  - reflexivity.
  - apply Forall_cons; split; [apply amount_field_complete|apply Forall_nil_2].
  - left. reflexivity.
Defined.



Lemma uint_serialize_at_end_Ok width n buffer :
  (0 ≤ n < 2 ^ (8 * Z.of_nat width))%Z →
  uint_serialize width (VNumber n) buffer (length buffer)
  = Ok (buffer ++ le_bytes width n).
Proof.
  intros Hn. unfold uint_serialize. rewrite decide_True by done.
  by rewrite write_bytes_at_end.
Qed.

Lemma uint_serialize_inside_Ok width n buffer from :
  from + width ≤ length buffer →
  (0 ≤ n < 2 ^ (8 * Z.of_nat width))%Z →
  uint_serialize width (VNumber n) buffer from
  = Ok (take from buffer ++ le_bytes width n ++ drop (from + width) buffer).
Proof.
  intros Hle Hn. unfold uint_serialize. rewrite decide_True by done.
  rewrite write_bytes_inside by (rewrite length_le_bytes; lia).
  by rewrite length_le_bytes.
Qed.

Lemma hex_serialize_at_end_Ok width s bytes buffer :
  hex_bytes s = Some bytes → length bytes = width →
  hex_serialize width (VString s) buffer (length buffer) = Ok (buffer ++ bytes).
Proof.
  intros Hs Hl. unfold hex_serialize. rewrite Hs, decide_True by done.
  by rewrite write_bytes_at_end.
Qed.

Lemma call_serialize_Ok_bytes rs data cut o out :
  call (NewMessage.serialize rs data cut) o = Ok out →
  ∃ header body tail,
    call selected_header o = Ok header
    ∧ NewMessage.serialization_serialize rs [] 0 data o true = Ok body
    ∧ (Z.of_nat (length body) < 2 ^ 64)%Z
    ∧ out = message_bytes header body ++ tail
    ∧ length tail = if is_not_true cut then SIGNATURE_LENGTH else 0.
Proof.
  rewrite call_serialize. intros H. apply serialize_result_Ok in H
    as (header & body & Hh & Hb & Hn & _ & marked & Hmarked & Hout).
  exists header, body.
  assert (marked = message_bytes header body) as ->
    by (rewrite Hmarked; unfold message_bytes; by rewrite <- !app_assoc).
  destruct (is_not_true cut).
  - destruct Hout as (_ & s & signature & _ & _ & Hl & ->). by exists signature.
  - subst out. exists []. by rewrite app_nil_r.
Qed.

(** X5.  [serialize] returns exactly when the selected header and the
    body encoder return and, unless [cutSignature] is [true], the stored
    signature is a string of 128 hexadecimal digits; its output is then
    the header with the body length at offsets 48 to 55, the body, the
    signature length and, unless cut, the 64 bytes of the signature. *)
Theorem serialize_returns_iff rs data cut o out :
  call (NewMessage.serialize rs data cut) o = Ok out
  ↔ ∃ header body,
      call selected_header o = Ok header
      ∧ NewMessage.serialization_serialize rs [] 0 data o true = Ok body
      ∧ (Z.of_nat (length body) < 2 ^ 64)%Z
      ∧ if is_not_true cut
        then ∃ s signature,
               get o "signature" = Scalar (VString s)
               ∧ hex_bytes s = Some signature
               ∧ length signature = SIGNATURE_LENGTH
               ∧ out = message_bytes header body ++ signature
        else out = message_bytes header body.
Proof.
  rewrite call_serialize. split.
  - intros H. apply serialize_result_Ok in H
      as (header & body & Hh & Hb & Hn & _ & marked & -> & Hout).
    exists header, body. split; [done|]. split; [done|]. split; [done|].
    unfold message_bytes.
    destruct (is_not_true cut).
    + destruct Hout as (_ & s & signature & Hs & Hhex & Hl & ->).
      exists s, signature. by rewrite <- !app_assoc.
    + subst out. by rewrite <- !app_assoc.
  - intros (header & body & Hh & Hb & Hn & Hout).
    pose proof (selected_header_length _ _ Hh) as Hlen.
    unfold serialize_result. rewrite Hh, Hb. cbn [result_bind].
    rewrite uint_serialize_inside_Ok
      by (first [lia | change (8 * Z.of_nat 8)%Z with 64%Z; lia]).
    cbn [result_bind]. rewrite push_all_app.
    rewrite uint_serialize_at_end_Ok by (by vm_compute).
    cbn [result_bind].
    assert (((take 48 header ++ le_bytes 8 (Z.of_nat (length body))
              ++ drop (48 + 8) header) ++ body)
            ++ le_bytes 8 (Z.of_nat SIGNATURE_LENGTH)
            = message_bytes header body) as ->
      by (unfold message_bytes; by rewrite <- !app_assoc).
    destruct (is_not_true cut); [|by subst].
    destruct Hout as (s & signature & -> & Hs & Hl & ->). simpl.
    by apply hex_serialize_at_end_Ok.
Qed.

(** X6.  The length of the output of [serialize] is the length of the
    header (56 on the transaction path, 58 on the precommit path) plus
    the length of the body plus 8, plus 64 when the signature is not
    cut. *)
Theorem serialize_output_length rs data cut o out :
  call (NewMessage.serialize rs data cut) o = Ok out →
  ∃ body,
    NewMessage.serialization_serialize rs [] 0 data o true = Ok body
    ∧ length out
      = (if strict_eq_string (get o "messageType") "precommit" then 58 else 56)
        + length body + 8 + (if is_not_true cut then SIGNATURE_LENGTH else 0).
Proof.
  intros H. apply call_serialize_Ok_bytes in H
    as (header & body & tail & Hh & Hb & Hn & -> & Htail).
  exists body. split; [done|].
  assert (length header
          = if strict_eq_string (get o "messageType") "precommit" then 58 else 56)
    as Hlen.
  { rewrite call_selected_header in Hh.
    destruct (strict_eq_string (get o "messageType") "precommit").
    - by apply precommit_header_length in Hh.
    - by apply transaction_header_length in Hh. }
  rewrite <- Hlen, length_app, Htail. unfold message_bytes.
  rewrite !length_app, length_take, !length_le_bytes, length_drop.
  destruct (strict_eq_string _ _); lia.
Qed.

Lemma serialize_output_length_witness :
  ∃ body,
    NewMessage.serialization_serialize fixed_record_serialize [] 0 example_data
      (signed_envelope example_signature) true = Ok body
    ∧ length (example_preimage ++ example_signature_bytes)
      = 56 + length body + 8 + SIGNATURE_LENGTH.
Proof.
  apply (serialize_output_length fixed_record_serialize example_data VUndefined
           (signed_envelope example_signature)).
  vm_compute. reflexivity.
Defined.

(** X7.  [serialize] never changes the envelope; when it returns it has
    written one line to the console, its output, and when it throws it
    has written nothing. *)
Theorem serialize_logs_its_output rs data cut w :
  this (NewMessage.serialize rs data cut w).1 = this w
  ∧ match (NewMessage.serialize rs data cut w).2 with
    | Ok out => console (NewMessage.serialize rs data cut w).1 = console w ++ [out]
    | Throw _ => (NewMessage.serialize rs data cut w).1 = w
    end.
Proof.
  rewrite serialize_run.
  by destruct (serialize_result rs data cut (this w)).
Qed.

Lemma precommit_header_ignores o k x :
  k ∉ ["protocol_version"; "public_key"; "consensus_tag"; "service_id"] →
  call NewMessage.precommitHeaderSerialization (<[k := x]> o)
  = call NewMessage.precommitHeaderSerialization o.
Proof.
  intros Hk.
  unfold call, NewMessage.precommitHeaderSerialization, bind, read, lift.
  cbn [this].
  rewrite !(get_insert_ne o k) by (intros ->; apply Hk; solve [repeat constructor]).
  by destruct (js_length (get o "public_key")).
Qed.

Lemma selected_header_ignores o k x :
  k ∉ ["messageType"; "protocol_version"; "publicKey"; "public_key";
       "consensus_tag"; "service_id"] →
  call selected_header (<[k := x]> o) = call selected_header o.
Proof.
  intros Hk.
  rewrite (call_selected_header (<[k := x]> o)), (call_selected_header o).
  rewrite (get_insert_ne o k) by (intros ->; apply Hk; solve [repeat constructor]).
  rewrite (precommit_header_ignores o k x), (transaction_header_ignores o k x);
    [done| |].
  - intros Hk'. apply Hk.
    repeat (apply elem_of_cons in Hk' as [->|Hk']; [solve [repeat constructor]|]).
    by apply elem_of_nil in Hk'.
  - intros Hk'. apply Hk.
    repeat (apply elem_of_cons in Hk' as [->|Hk']; [solve [repeat constructor]|]).
    by apply elem_of_nil in Hk'.
Qed.





(** X9.  What [serialize(data, true)] returns does not depend on the
    signature stored in the envelope (the body encoder being given the
    schema's [fields] only). *)
Theorem serialize_preimage_ignores_signature rs data o x :
  call (NewMessage.serialize rs data (VBool true)) (<["signature" := x]> o)
  = call (NewMessage.serialize rs data (VBool true)) o.
Proof.
  rewrite !call_serialize. unfold serialize_result.
  rewrite selected_header_ignores
    by (repeat (apply not_elem_of_cons; split; [done|]); apply not_elem_of_nil).
  unfold NewMessage.serialization_serialize.
  by rewrite (get_insert_ne o "signature") by done.
Qed.

Lemma hex_bytes_length_bounded n s bytes :
  String.length s ≤ n → hex_bytes s = Some bytes →
  String.length s = 2 * length bytes.
Proof.
  revert s bytes. induction n as [|n IH]; intros s bytes Hn Hs.
  - destruct s; [|simpl in Hn; lia]. by injection Hs as <-.
  - destruct s as [|a [|b rest]]; [by injection Hs as <-|discriminate|].
    simpl in Hs.
    destruct (hex_digit a), (hex_digit b); try discriminate.
    destruct (hex_bytes rest) as [bytes'|] eqn:Hrest; [|discriminate].
    injection Hs as <-. simpl in *.
    rewrite (IH rest bytes'); [lia|lia|done].
Qed.

Lemma hex_bytes_length s bytes :
  hex_bytes s = Some bytes → String.length s = 2 * length bytes.
Proof. by apply (hex_bytes_length_bounded (String.length s)). Qed.

Lemma serialize_fields_step n h width rest data buffer out :
  type_size h = Some width → well_sized h →
  generic.serialize_fields ({| name := VString n; type := Some h |} :: rest)
    data buffer (length buffer) = Ok out →
  ∃ v bytes,
    get data n = Scalar v
    ∧ type_serialize h v buffer (length buffer) = Ok (buffer ++ bytes)
    ∧ generic.serialize_fields rest data (buffer ++ bytes)
        (length (buffer ++ bytes)) = Ok out.
Proof.
  intros Hsz Hws. cbn [generic.serialize_fields name type]. rewrite Hsz.
  intros H.
  assert (∃ x, get data n = x ∧
    result_bind (serialize_prop h x buffer (length buffer))
      (λ buffer', generic.serialize_fields rest data buffer' (length buffer + width))
    = Ok out) as (x & Hx & Hrun).
  { destruct (get data n) as [[]|]; try discriminate; eauto. }
  destruct (serialize_prop h x buffer (length buffer)) as [buffer'|] eqn:Hser;
    [|discriminate].
  destruct x as [v|]; [|discriminate]. simpl in Hser, Hrun.
  destruct (Hws width v buffer buffer' Hsz Hser) as (bytes & -> & Hlen).
  exists v, bytes. split; [done|]. split; [done|].
  by rewrite length_app, Hlen.
Qed.

Lemma serialize_fields_step_Ok n h width rest data buffer v bytes :
  type_size h = Some width →
  get data n = Scalar v → v ≠ VUndefined →
  type_serialize h v buffer (length buffer) = Ok (buffer ++ bytes) →
  length bytes = width →
  generic.serialize_fields ({| name := VString n; type := Some h |} :: rest)
    data buffer (length buffer)
  = generic.serialize_fields rest data (buffer ++ bytes) (length (buffer ++ bytes)).
Proof.
  intros Hsz Hget Hv Hser Hlen. cbn [generic.serialize_fields name type].
  rewrite Hsz, Hget.
  assert (serialize_prop h (Scalar v) buffer (length buffer) = Ok (buffer ++ bytes))
    as Hprop by done.
  destruct v; try done; rewrite Hprop; cbn [result_bind];
    by rewrite length_app, Hlen.
Qed.

Ltac header_gets_goal :=
  repeat first [rewrite get_insert_eq | rewrite get_insert_ne by done].

Ltac header_gets H :=
  repeat first [rewrite get_insert_eq in H | rewrite get_insert_ne in H by done].

Lemma call_transaction_header o :
  call NewMessage.transactionHeaderSerialization o
  = result_bind (js_length (get o "publicKey")) (λ publicKey_length,
      generic.newType_serialize NewMessage.transaction_head_fields
        (<["protocol_version" := get o "protocol_version"]>
        (<["pk_size" := Scalar (js_div2 publicKey_length)]>
        (<["pk_data" := get o "publicKey"]>
        (<["tx_tag" := Scalar (VNumber 0)]>
        (<["service_id" := get o "service_id"]>
        (<["full_tx_len" := Scalar (VNumber 0)]> ∅))))))).
Proof.
  unfold call, NewMessage.transactionHeaderSerialization, bind, read, lift.
  cbn [this]. by destruct (js_length (get o "publicKey")).
Qed.

Lemma call_precommit_header o :
  call NewMessage.precommitHeaderSerialization o
  = result_bind (js_length (get o "public_key")) (λ public_key_length,
      generic.newType_serialize NewMessage.precommit_head_fields
        (<["protocol_version" := get o "protocol_version"]>
        (<["pk_size" := Scalar (js_div2 public_key_length)]>
        (<["pk_data" := get o "public_key"]>
        (<["consensus_tag" := get o "consensus_tag"]>
        (<["precommit_tag" := get o "service_id"]>
        (<["precommit_len" := Scalar (VNumber 0)]> ∅))))))).
Proof.
  unfold call, NewMessage.precommitHeaderSerialization, bind, read, lift.
  cbn [this]. by destruct (js_length (get o "public_key")).
Qed.

Lemma js_length_key p s key :
  p = Scalar (VString s) → hex_bytes s = Some key → length key = 32 →
  js_length p = Ok (VNumber 64).
Proof.
  intros -> Hs Hl. simpl. rewrite (hex_bytes_length s key Hs), Hl. done.
Qed.

Lemma call_transaction_header_Ok o header :
  call NewMessage.transactionHeaderSerialization o = Ok header →
  ∃ pv s key sid,
      get o "protocol_version" = Scalar (VNumber pv) ∧ (0 ≤ pv < 2 ^ 16)%Z
      ∧ get o "publicKey" = Scalar (VString s)
      ∧ hex_bytes s = Some key ∧ length key = 32
      ∧ get o "service_id" = Scalar (VNumber sid) ∧ (0 ≤ sid < 2 ^ 16)%Z
      ∧ header = transaction_header_bytes pv key sid.
Proof.
  rewrite call_transaction_header.
  destruct (js_length (get o "publicKey")) as [len|] eqn:Hlen; [|discriminate].
  cbn [result_bind]. unfold generic.newType_serialize,
    NewMessage.transaction_head_fields. intros H.
  apply (serialize_fields_step _ _ 2 _ _ []) in H
    as (v1 & b1 & Hg1 & Hs1 & H); [|done|apply uint_well_sized].
  apply (serialize_fields_step _ _ 8) in H
    as (v2 & b2 & Hg2 & Hs2 & H); [|done|apply uint_well_sized].
  apply (serialize_fields_step _ _ 32) in H
    as (v3 & b3 & Hg3 & Hs3 & H); [|done|apply hex_well_sized].
  apply (serialize_fields_step _ _ 4) in H
    as (v4 & b4 & Hg4 & Hs4 & H); [|done|apply uint_well_sized].
  apply (serialize_fields_step _ _ 2) in H
    as (v5 & b5 & Hg5 & Hs5 & H); [|done|apply uint_well_sized].
  apply (serialize_fields_step _ _ 8) in H
    as (v6 & b6 & Hg6 & Hs6 & H); [|done|apply uint_well_sized].
  injection H as <-.
  header_gets Hg1. header_gets Hg2. header_gets Hg3. header_gets Hg4.
  header_gets Hg5. header_gets Hg6.
  cbn [type_serialize primitive.Uint16 primitive.Uint32 primitive.Uint64
       hexadecimal.Hash] in *.
  apply uint_serialize_at_end in Hs1 as (pv & -> & Hpv & E1).
  apply uint_serialize_at_end in Hs2 as (n2 & -> & _ & E2).
  apply hex_serialize_at_end in Hs3 as (s & key & -> & Hs & Hl & E3).
  apply uint_serialize_at_end in Hs4 as (n4 & -> & _ & E4).
  apply uint_serialize_at_end in Hs5 as (sid & -> & Hsid & E5).
  apply uint_serialize_at_end in Hs6 as (n6 & -> & _ & E6).
  apply app_inv_head in E1, E2, E3, E4, E5, E6. subst.
  rewrite (js_length_key _ s key Hg3 Hs Hl) in Hlen. injection Hlen as <-.
  injection Hg2 as <-. injection Hg4 as <-. injection Hg6 as <-.
  exists pv, s, key, sid. repeat (split; [done|]).
  unfold transaction_header_bytes. by rewrite <- !app_assoc.
Qed.

(** X10.  [transactionHeaderSerialization] returns exactly when
    [protocol_version] and [service_id] are integers below 2^16 and
    [publicKey] is a string of 64 hexadecimal digits; the header is then
    the 56 bytes of [transaction_header_bytes], with [pk_size] 32 and
    [tx_tag] and [full_tx_len] 0. *)
Theorem transaction_header_iff o header :
  call NewMessage.transactionHeaderSerialization o = Ok header
  ↔ ∃ pv s key sid,
      get o "protocol_version" = Scalar (VNumber pv) ∧ (0 ≤ pv < 2 ^ 16)%Z
      ∧ get o "publicKey" = Scalar (VString s)
      ∧ hex_bytes s = Some key ∧ length key = 32
      ∧ get o "service_id" = Scalar (VNumber sid) ∧ (0 ≤ sid < 2 ^ 16)%Z
      ∧ header = transaction_header_bytes pv key sid.
Proof.
  split; [apply call_transaction_header_Ok|].
  rewrite call_transaction_header.
  intros (pv & s & key & sid & Hpv & Hpvr & Hkey & Hs & Hl & Hsid & Hsidr & ->).
  rewrite (js_length_key _ s key Hkey Hs Hl). cbn [result_bind].
  unfold generic.newType_serialize, NewMessage.transaction_head_fields.
  rewrite Hpv, Hkey, Hsid.
  change 0 with (length (@nil Z)).
  do 2 (erewrite serialize_fields_step_Ok;
        [|reflexivity|header_gets_goal; reflexivity|discriminate
         |apply uint_serialize_at_end_Ok; first [done|by vm_compute]
         |apply length_le_bytes]).
  erewrite serialize_fields_step_Ok;
    [|reflexivity|header_gets_goal; reflexivity|discriminate
     |by apply hex_serialize_at_end_Ok|done].
  do 3 (erewrite serialize_fields_step_Ok;
        [|reflexivity|header_gets_goal; reflexivity|discriminate
         |apply uint_serialize_at_end_Ok; first [done|by vm_compute]
         |apply length_le_bytes]).
  cbn [generic.serialize_fields]. unfold transaction_header_bytes.
  by rewrite <- !app_assoc.
Qed.

Lemma call_precommit_header_Ok o header :
  call NewMessage.precommitHeaderSerialization o = Ok header →
  ∃ pv s key ctag sid,
      get o "protocol_version" = Scalar (VNumber pv) ∧ (0 ≤ pv < 2 ^ 16)%Z
      ∧ get o "public_key" = Scalar (VString s)
      ∧ hex_bytes s = Some key ∧ length key = 32
      ∧ get o "consensus_tag" = Scalar (VNumber ctag) ∧ (0 ≤ ctag < 2 ^ 32)%Z
      ∧ get o "service_id" = Scalar (VNumber sid) ∧ (0 ≤ sid < 2 ^ 32)%Z
      ∧ header = precommit_header_bytes pv key ctag sid.
Proof.
  rewrite call_precommit_header.
  destruct (js_length (get o "public_key")) as [len|] eqn:Hlen; [|discriminate].
  cbn [result_bind]. unfold generic.newType_serialize,
    NewMessage.precommit_head_fields. intros H.
  apply (serialize_fields_step _ _ 2 _ _ []) in H
    as (v1 & b1 & Hg1 & Hs1 & H); [|done|apply uint_well_sized].
  apply (serialize_fields_step _ _ 8) in H
    as (v2 & b2 & Hg2 & Hs2 & H); [|done|apply uint_well_sized].
  apply (serialize_fields_step _ _ 32) in H
    as (v3 & b3 & Hg3 & Hs3 & H); [|done|apply hex_well_sized].
  apply (serialize_fields_step _ _ 4) in H
    as (v4 & b4 & Hg4 & Hs4 & H); [|done|apply uint_well_sized].
  apply (serialize_fields_step _ _ 4) in H
    as (v5 & b5 & Hg5 & Hs5 & H); [|done|apply uint_well_sized].
  apply (serialize_fields_step _ _ 8) in H
    as (v6 & b6 & Hg6 & Hs6 & H); [|done|apply uint_well_sized].
  injection H as <-.
  header_gets Hg1. header_gets Hg2. header_gets Hg3. header_gets Hg4.
  header_gets Hg5. header_gets Hg6.
  cbn [type_serialize primitive.Uint16 primitive.Uint32 primitive.Uint64
       hexadecimal.Hash] in *.
  apply uint_serialize_at_end in Hs1 as (pv & -> & Hpv & E1).
  apply uint_serialize_at_end in Hs2 as (n2 & -> & _ & E2).
  apply hex_serialize_at_end in Hs3 as (s & key & -> & Hs & Hl & E3).
  apply uint_serialize_at_end in Hs4 as (ctag & -> & Hctag & E4).
  apply uint_serialize_at_end in Hs5 as (sid & -> & Hsid & E5).
  apply uint_serialize_at_end in Hs6 as (n6 & -> & _ & E6).
  apply app_inv_head in E1, E2, E3, E4, E5, E6. subst.
  rewrite (js_length_key _ s key Hg3 Hs Hl) in Hlen. injection Hlen as <-.
  injection Hg2 as <-. injection Hg6 as <-.
  exists pv, s, key, ctag, sid. repeat (split; [done|]).
  unfold precommit_header_bytes. by rewrite <- !app_assoc.
Qed.

(** X11.  [precommitHeaderSerialization] returns exactly when
    [protocol_version] is an integer below 2^16, [consensus_tag] and
    [service_id] are integers below 2^32 and [public_key] is a string of
    64 hexadecimal digits; the header is then the 58 bytes of
    [precommit_header_bytes]. *)
Theorem precommit_header_iff o header :
  call NewMessage.precommitHeaderSerialization o = Ok header
  ↔ ∃ pv s key ctag sid,
      get o "protocol_version" = Scalar (VNumber pv) ∧ (0 ≤ pv < 2 ^ 16)%Z
      ∧ get o "public_key" = Scalar (VString s)
      ∧ hex_bytes s = Some key ∧ length key = 32
      ∧ get o "consensus_tag" = Scalar (VNumber ctag) ∧ (0 ≤ ctag < 2 ^ 32)%Z
      ∧ get o "service_id" = Scalar (VNumber sid) ∧ (0 ≤ sid < 2 ^ 32)%Z
      ∧ header = precommit_header_bytes pv key ctag sid.
Proof.
  split; [apply call_precommit_header_Ok|].
  rewrite call_precommit_header.
  intros (pv & s & key & ctag & sid
          & Hpv & Hpvr & Hkey & Hs & Hl & Hctag & Hctagr & Hsid & Hsidr & ->).
  rewrite (js_length_key _ s key Hkey Hs Hl). cbn [result_bind].
  unfold generic.newType_serialize, NewMessage.precommit_head_fields.
  rewrite Hpv, Hkey, Hctag, Hsid.
  change 0 with (length (@nil Z)).
  do 2 (erewrite serialize_fields_step_Ok;
        [|reflexivity|header_gets_goal; reflexivity|discriminate
         |apply uint_serialize_at_end_Ok; first [done|by vm_compute]
         |apply length_le_bytes]).
  erewrite serialize_fields_step_Ok;
    [|reflexivity|header_gets_goal; reflexivity|discriminate
     |by apply hex_serialize_at_end_Ok|done].
  do 3 (erewrite serialize_fields_step_Ok;
        [|reflexivity|header_gets_goal; reflexivity|discriminate
         |apply uint_serialize_at_end_Ok; first [done|by vm_compute]
         |apply length_le_bytes]).
  cbn [generic.serialize_fields]. unfold precommit_header_bytes.
  by rewrite <- !app_assoc.
Qed.

Lemma take_drop_middle_app (a b c : list Z) i n :
  i = length a → n = length b → take n (drop i (a ++ b ++ c)) = b.
Proof.
  intros -> ->. rewrite drop_app_length. by rewrite take_app_length.
Qed.

(** X12.  Round trip: decoding a transaction header at its offsets
    gives back the envelope's [protocol_version], half the length of its
    [publicKey] string, the bytes of the key, and its [service_id];
    [tx_tag] and [full_tx_len] decode to 0. *)
Theorem transaction_header_round_trip o header :
  call NewMessage.transactionHeaderSerialization o = Ok header →
  ∃ pv s key sid,
    get o "protocol_version" = Scalar (VNumber pv)
    ∧ get o "publicKey" = Scalar (VString s) ∧ hex_bytes s = Some key
    ∧ get o "service_id" = Scalar (VNumber sid)
    ∧ le_value (take 2 header) = pv
    ∧ le_value (take 8 (drop 2 header)) = (Z.of_nat (String.length s) / 2)%Z
    ∧ take 32 (drop 10 header) = key
    ∧ le_value (take 4 (drop 42 header)) = 0%Z
    ∧ le_value (take 2 (drop 46 header)) = sid
    ∧ le_value (take 8 (drop 48 header)) = 0%Z.
Proof.
  intros H. apply call_transaction_header_Ok in H
    as (pv & s & key & sid & Hpv & Hpvr & Hkey & Hs & Hl & Hsid & Hsidr & ->).
  exists pv, s, key, sid. repeat (split; [done|]).
  unfold transaction_header_bytes.
  pose proof (length_le_bytes 2 pv) as L1.
  pose proof (length_le_bytes 8 32) as L2.
  pose proof (length_le_bytes 4 0) as L4.
  pose proof (length_le_bytes 2 sid) as L5.
  set (A := le_bytes 2 pv) in *. set (B := le_bytes 8 32) in *.
  set (D := le_bytes 4 0) in *. set (E := le_bytes 2 sid) in *.
  set (F := le_bytes 8 0).
  split.
  { rewrite take_app_length' by done. by apply le_value_le_bytes. }
  split.
  { rewrite take_drop_middle_app by done.
    rewrite (hex_bytes_length s key Hs), Hl. done. }
  split.
  { rewrite (app_assoc A B). apply take_drop_middle_app; [|done].
    rewrite length_app. lia. }
  split.
  { rewrite (app_assoc A B), (app_assoc (A ++ B) key).
    rewrite take_drop_middle_app; [done| |done].
    rewrite !length_app. lia. }
  split.
  { rewrite (app_assoc A B), (app_assoc (A ++ B) key),
      (app_assoc ((A ++ B) ++ key) D).
    rewrite take_drop_middle_app; [by apply le_value_le_bytes| |done].
    rewrite !length_app. lia. }
  rewrite (app_assoc A B), (app_assoc (A ++ B) key),
    (app_assoc ((A ++ B) ++ key) D), (app_assoc (((A ++ B) ++ key) ++ D) E).
  rewrite drop_app_length' by (rewrite !length_app; lia).
  done.
Qed.

Lemma transaction_header_round_trip_witness :
  ∃ pv s key sid,
    get (signed_envelope example_signature) "protocol_version" = Scalar (VNumber pv)
    ∧ get (signed_envelope example_signature) "publicKey" = Scalar (VString s)
    ∧ hex_bytes s = Some key
    ∧ get (signed_envelope example_signature) "service_id" = Scalar (VNumber sid)
    ∧ le_value (take 2 (transaction_header_bytes 0 example_public_key_bytes 258)) = pv
    ∧ le_value (take 8 (drop 2 (transaction_header_bytes 0 example_public_key_bytes 258)))
      = (Z.of_nat (String.length s) / 2)%Z
    ∧ take 32 (drop 10 (transaction_header_bytes 0 example_public_key_bytes 258)) = key
    ∧ le_value (take 4 (drop 42 (transaction_header_bytes 0 example_public_key_bytes 258)))
      = 0%Z
    ∧ le_value (take 2 (drop 46 (transaction_header_bytes 0 example_public_key_bytes 258)))
      = sid
    ∧ le_value (take 8 (drop 48 (transaction_header_bytes 0 example_public_key_bytes 258)))
      = 0%Z.
Proof.
  apply (transaction_header_round_trip (signed_envelope example_signature)).
  vm_compute. reflexivity.
Defined.

Lemma le_value_app (l1 l2 : list Z) :
  le_value (l1 ++ l2) = (le_value l1 + 256 ^ Z.of_nat (length l1) * le_value l2)%Z.
Proof.
  induction l1 as [|b l1 IH]; [simpl; lia|].
  cbn [app le_value length]. rewrite IH, Nat2Z.inj_succ, Z.pow_succ_r by lia. lia.
Qed.

Lemma le_bytes_add (a b : nat) (n : Z) :
  le_bytes (a + b) n = le_bytes a n ++ le_bytes b (n / 256 ^ Z.of_nat a)%Z.
Proof.
  revert n. induction a as [|a IH]; intros n.
  - simpl. by rewrite Z.div_1_r.
  - cbn [Nat.add le_bytes app]. rewrite IH. do 3 f_equal.
    rewrite Nat2Z.inj_succ, Z.pow_succ_r by lia.
    rewrite Z.div_div by lia. done.
Qed.

Lemma le_value_le_bytes_mod (width : nat) (n : Z) :
  (0 ≤ n)%Z → le_value (le_bytes width n) = (n mod 256 ^ Z.of_nat width)%Z.
Proof.
  revert n. induction width as [|w IH]; intros n Hn.
  - simpl. by rewrite Z.mod_1_r.
  - cbn [le_bytes le_value]. rewrite IH by (apply Z.div_pos; lia).
    rewrite Nat2Z.inj_succ, Z.pow_succ_r by lia.
    rewrite Z.rem_mul_r by lia. done.
Qed.

(** X13.  On the precommit path the write of the body length at offset
    48 does not fill [precommit_len]: in the output, the 4 bytes of
    [precommit_tag] decode to the low 16 bits of [service_id] plus 65536
    times the low 16 bits of the body length, and the 8 bytes of
    [precommit_len] decode to the body length divided by 65536. *)
Theorem precommit_length_fields rs data cut o out :
  strict_eq_string (get o "messageType") "precommit" = true →
  call (NewMessage.serialize rs data cut) o = Ok out →
  ∃ sid body,
    get o "service_id" = Scalar (VNumber sid)
    ∧ NewMessage.serialization_serialize rs [] 0 data o true = Ok body
    ∧ le_value (take 4 (drop 46 out))
      = (sid mod 65536 + 65536 * (Z.of_nat (length body) mod 65536))%Z
    ∧ le_value (take 8 (drop 50 out)) = (Z.of_nat (length body) / 65536)%Z.
Proof.
  intros Hkind H. apply call_serialize_Ok_bytes in H
    as (header & body & tail' & Hh & Hb & Hn & -> & _).
  rewrite call_selected_header, Hkind in Hh.
  apply call_precommit_header_Ok in Hh
    as (pv & s & key & ctag & sid
        & _ & _ & _ & _ & Hl & _ & _ & Hsid & Hsidr & ->).
  exists sid, body. split; [done|]. split; [done|].
  set (L := Z.of_nat (length body)) in *.
  set (P := le_bytes 2 pv ++ le_bytes 8 32 ++ key ++ le_bytes 4 ctag).
  assert (length P = 46) as HP
    by (unfold P; rewrite !length_app, !length_le_bytes, Hl; lia).
  assert (∃ tail, message_bytes (precommit_header_bytes pv key ctag sid) body
                  ++ tail'
                  = P ++ (le_bytes 2 sid ++ le_bytes 2 L)
                    ++ (le_bytes 6 (L / 65536) ++ le_bytes 2 0) ++ tail)
    as [tail ->].
  { exists (body ++ le_bytes 8 (Z.of_nat SIGNATURE_LENGTH) ++ tail').
    unfold message_bytes. fold L.
    assert (precommit_header_bytes pv key ctag sid
            = P ++ le_bytes 4 sid ++ le_bytes 8 0) as ->
      by (unfold precommit_header_bytes, P; by rewrite <- !app_assoc).
    change 48 with (46 + 2) at 1.
    rewrite take_app_add' by done.
    rewrite (app_assoc P (le_bytes 4 sid)).
    change 56 with (50 + 6).
    rewrite drop_app_add' by (rewrite length_app, length_le_bytes; lia).
    change (le_bytes 4 sid) with (le_bytes (2 + 2) sid).
    rewrite (le_bytes_add 2 2 sid).
    rewrite <- (app_assoc (le_bytes 2 sid)).
    rewrite (take_app_length' (le_bytes 2 sid)) by reflexivity.
    change (le_bytes 8 L) with (le_bytes (2 + 6) L).
    rewrite (le_bytes_add 2 6 L).
    change (drop 6 (le_bytes 8 0)) with (le_bytes 2 0).
    change (256 ^ Z.of_nat 2)%Z with 65536%Z.
    by rewrite <- !app_assoc. }
  split.
  - rewrite take_drop_middle_app
      by (rewrite ?length_app, ?length_le_bytes; lia).
    rewrite le_value_app, !le_value_le_bytes_mod, length_le_bytes by lia.
    done.
  - rewrite (app_assoc P).
    rewrite take_drop_middle_app
      by (rewrite ?length_app, ?length_le_bytes; lia).
    rewrite le_value_app.
    change (le_value (le_bytes 2 0)) with 0%Z.
    assert (0 ≤ L `div` 65536 < 2 ^ 48)%Z as Hrange.
    { split; [apply Z.div_pos; lia|]. apply Z.div_lt_upper_bound; lia. }
    rewrite le_value_le_bytes_mod by lia.
    change (256 ^ Z.of_nat 6)%Z with (2 ^ 48)%Z.
    rewrite Z.mod_small by done. lia.
Qed.

Lemma precommit_length_fields_witness :
  ∃ sid body,
    get (with_messageType "precommit"
           (example_envelope "precommit" (VString example_signature))) "service_id"
    = Scalar (VNumber sid)
    ∧ NewMessage.serialization_serialize fixed_record_serialize [] 0 example_data
        (with_messageType "precommit"
           (example_envelope "precommit" (VString example_signature))) true
      = Ok body
    ∧ le_value (take 4 (drop 46 example_precommit_message))
      = (sid mod 65536 + 65536 * (Z.of_nat (length body) mod 65536))%Z
    ∧ le_value (take 8 (drop 50 example_precommit_message))
      = (Z.of_nat (length body) / 65536)%Z.
Proof.
  apply (precommit_length_fields fixed_record_serialize example_data (VBool true)
           (with_messageType "precommit"
              (example_envelope "precommit" (VString example_signature)))).
  - reflexivity.
  - vm_compute. reflexivity.
Defined.

Lemma get_assigned type o k :
  k ∈ constructor_keys → get (assigned type o) k = get type k.
Proof.
  intros Hk. unfold get at 1. rewrite assigned_lookup. by rewrite decide_True.
Qed.

(** X14.  Round trip through the constructor: the precommit header of
    an envelope built by [newMessage] is 58 bytes long and decodes at its
    offsets to the [protocol_version], [public_key], [consensus_tag] and
    [service_id] of the descriptor. *)
Theorem constructed_precommit_header_round_trip type o header :
  newMessage type = Ok o →
  call NewMessage.precommitHeaderSerialization o = Ok header →
  ∃ pv s key ctag sid,
    get type "protocol_version" = Scalar (VNumber pv)
    ∧ get type "public_key" = Scalar (VString s) ∧ hex_bytes s = Some key
    ∧ get type "consensus_tag" = Scalar (VNumber ctag)
    ∧ get type "service_id" = Scalar (VNumber sid)
    ∧ length header = 58
    ∧ le_value (take 2 header) = pv
    ∧ le_value (take 8 (drop 2 header)) = (Z.of_nat (String.length s) / 2)%Z
    ∧ take 32 (drop 10 header) = key
    ∧ le_value (take 4 (drop 42 header)) = ctag
    ∧ le_value (take 4 (drop 46 header)) = sid
    ∧ le_value (take 8 (drop 50 header)) = 0%Z.
Proof.
  intros Hnew H. apply newMessage_Ok in Hnew as [-> _].
  apply call_precommit_header_Ok in H
    as (pv & s & key & ctag & sid
        & Hpv & Hpvr & Hkey & Hs & Hl & Hctag & Hctagr & Hsid & Hsidr & ->).
  rewrite get_assigned in Hpv, Hkey, Hctag, Hsid
    by (unfold constructor_keys; solve [repeat constructor]).
  exists pv, s, key, ctag, sid. repeat (split; [done|]).
  unfold precommit_header_bytes.
  pose proof (length_le_bytes 2 pv) as L1.
  pose proof (length_le_bytes 8 32) as L2.
  pose proof (length_le_bytes 4 ctag) as L4.
  pose proof (length_le_bytes 4 sid) as L5.
  pose proof (length_le_bytes 8 0) as L6.
  set (A := le_bytes 2 pv) in *. set (B := le_bytes 8 32) in *.
  set (D := le_bytes 4 ctag) in *. set (E := le_bytes 4 sid) in *.
  set (F := le_bytes 8 0) in *.
  split; [rewrite !length_app; lia|].
  split.
  { rewrite take_app_length' by done. by apply le_value_le_bytes. }
  split.
  { rewrite take_drop_middle_app by done.
    rewrite (hex_bytes_length s key Hs), Hl. done. }
  split.
  { rewrite (app_assoc A B). apply take_drop_middle_app; [|done].
    rewrite length_app. lia. }
  split.
  { rewrite (app_assoc A B), (app_assoc (A ++ B) key).
    rewrite take_drop_middle_app; [by apply le_value_le_bytes| |done].
    rewrite !length_app. lia. }
  split.
  { rewrite (app_assoc A B), (app_assoc (A ++ B) key),
      (app_assoc ((A ++ B) ++ key) D).
    rewrite take_drop_middle_app; [by apply le_value_le_bytes| |done].
    rewrite !length_app. lia. }
  rewrite (app_assoc A B), (app_assoc (A ++ B) key),
    (app_assoc ((A ++ B) ++ key) D), (app_assoc (((A ++ B) ++ key) ++ D) E).
  rewrite drop_app_length' by (rewrite !length_app; lia).
  done.
Qed.

Lemma constructed_precommit_header_round_trip_witness :
  ∃ pv s key ctag sid,
    get (example_type "precommit" VUndefined) "protocol_version" = Scalar (VNumber pv)
    ∧ get (example_type "precommit" VUndefined) "public_key" = Scalar (VString s)
    ∧ hex_bytes s = Some key
    ∧ get (example_type "precommit" VUndefined) "consensus_tag" = Scalar (VNumber ctag)
    ∧ get (example_type "precommit" VUndefined) "service_id" = Scalar (VNumber sid)
    ∧ length (precommit_header_bytes 0 example_public_key_bytes 7 258) = 58
    ∧ le_value (take 2 (precommit_header_bytes 0 example_public_key_bytes 7 258)) = pv
    ∧ le_value (take 8 (drop 2 (precommit_header_bytes 0 example_public_key_bytes 7 258)))
      = (Z.of_nat (String.length s) / 2)%Z
    ∧ take 32 (drop 10 (precommit_header_bytes 0 example_public_key_bytes 7 258)) = key
    ∧ le_value (take 4 (drop 42 (precommit_header_bytes 0 example_public_key_bytes 7 258)))
      = ctag
    ∧ le_value (take 4 (drop 46 (precommit_header_bytes 0 example_public_key_bytes 7 258)))
      = sid
    ∧ le_value (take 8 (drop 50 (precommit_header_bytes 0 example_public_key_bytes 7 258)))
      = 0%Z.
Proof.
  apply (constructed_precommit_header_round_trip
           (example_type "precommit" VUndefined)
           (example_envelope "precommit" VUndefined)).
  - apply newMessage_example.
  - vm_compute. reflexivity.
Defined.
